(** * The identity page ([src/app/page.tsx]) as a state machine

    A shallow embedding of the page component [GlassStylePage] and of its
    [DomainList] child: the React state cells become record fields, every
    handler and effect becomes a function on that record, and what the
    browser does later (idle callbacks, timers, the answer of the IP
    service) becomes an event of a step function.

    The generators and the country table are imported by the page from
    [@/lib/...]; they are the fields of the class [Imports], so every
    theorem holds for whatever those modules do.  The saved-identity store
    is modelled from the spec. *)

From Stdlib Require Import String Ascii ZArith List Lia Bool.
From stdpp Require Import base tactics option list strings gmap.

Open Scope string_scope.
Open Scope list_scope.
Open Scope Z_scope.

(** ** Strings

    A string is the sequence of its code units.  [startsWith] and
    [includes] are [String.prototype.startsWith] and
    [String.prototype.includes] at position 0. *)

Fixpoint startsWith (s t : string) {struct t} : bool :=
  match t with
  | EmptyString => true
  | String c t' =>
      match s with
      | EmptyString => false
      | String d s' => if Ascii.eqb c d then startsWith s' t' else false
      end
  end.

Fixpoint includes (s t : string) {struct s} : bool :=
  startsWith s t ||
  match s with
  | EmptyString => false
  | String _ s' => includes s' t
  end.

(** A JavaScript string is falsy exactly when it is empty. *)
Definition truthy (s : string) : bool :=
  match s with
  | EmptyString => false
  | String _ _ => true
  end.

(** [String.prototype.toLowerCase] restricted to the ASCII letters, the
    only letters of a domain name; every other code unit is kept. *)
Definition lower_ascii (c : ascii) : ascii :=
  let n := nat_of_ascii c in
  if (Nat.leb 65 n && Nat.leb n 90)%bool then ascii_of_nat (n + 32) else c.

Fixpoint toLowerCase_ascii (s : string) : string :=
  match s with
  | EmptyString => EmptyString
  | String c s' => String (lower_ascii c) (toLowerCase_ascii s')
  end.

(** ** DomainList (lines 330-469) *)

(** [Array.prototype.slice(0, e)]: a negative end counts from the back,
    an end past the length stops at the length. *)
Definition slice0 {A : Type} (l : list A) (e : Z) : list A :=
  let len := Z.of_nat (length l) in
  let k := if e <? 0 then Z.max (len + e) 0 else Z.min e len in
  take (Z.to_nat k) l.

Record DomainListState : Type := mkDomainListState {
  searchQuery : string;     (* line 335 *)
  visibleCount : Z;         (* line 336 *)
  filteredQuery : string    (* line 339 *)
}.

(** The state of a freshly mounted list (lines 335-339). *)
Definition DomainList_initial : DomainListState :=
  {| searchQuery := ""; visibleCount := 50; filteredQuery := "" |}.

Section DomainList.

(** The host's [toLowerCase]; nothing below looks inside it. *)
Variable toLowerCase : string -> string.

(** Lines 358-362. *)
Definition filteredDomains (allDomains : list string) (filteredQuery : string)
  : list string :=
  if negb (truthy filteredQuery) then allDomains
  else
    let query := toLowerCase filteredQuery in
    List.filter (fun d => includes (toLowerCase d) query) allDomains.

(** Lines 364-366. *)
Definition visibleDomains (allDomains : list string) (s : DomainListState)
  : list string :=
  slice0 (filteredDomains allDomains (filteredQuery s)) (visibleCount s).

(** [handleSearchChange] and [handleClearSearch] (lines 396-402). *)
Definition handleSearchChange (value : string) (s : DomainListState)
  : DomainListState :=
  {| searchQuery := value;
     visibleCount := visibleCount s;
     filteredQuery := filteredQuery s |}.

Definition handleClearSearch (s : DomainListState) : DomainListState :=
  handleSearchChange "" s.

(** The debounce timer of lines 346-349 fires. *)
Definition debounce_fires (s : DomainListState) : DomainListState :=
  {| searchQuery := searchQuery s;
     visibleCount := 50;
     filteredQuery := searchQuery s |}.

(** The intersection observer of lines 373-377 reports the sentinel. *)
Definition sentinel_intersects (allDomains : list string) (s : DomainListState)
  : DomainListState :=
  let len := Z.of_nat (length (filteredDomains allDomains (filteredQuery s))) in
  if visibleCount s <? len
  then {| searchQuery := searchQuery s;
          visibleCount := Z.min (visibleCount s + 50) len;
          filteredQuery := filteredQuery s |}
  else s.

(** What the spec calls "the subsequence of the registry whose elements
    contain q case-insensitively": [d] contains [q] when the lower-cased
    [q] occurs as a block inside the lower-cased [d], and the subsequence
    keeps exactly the members that do, in their order. *)
Definition contains_ci (q d : string) : Prop :=
  exists pre post : string, toLowerCase d = pre +:+ toLowerCase q +:+ post.

Inductive kept_where (P : string -> Prop) : list string -> list string -> Prop :=
| kept_nil : kept_where P [] []
| kept_keep d l k : P d -> kept_where P l k -> kept_where P (d :: l) (d :: k)
| kept_drop d l k : ~ P d -> kept_where P l k -> kept_where P (d :: l) k.

End DomainList.

(** ** Data of the page *)

(** A thrown value. *)
Definition exn : Type := string.

(** [CountryConfig] is declared in [@/lib/countryData]; the page reads its
    [code] and [name] and hands the whole object to [generatePhone], so the
    rest of it is carried as [locale]. *)
Record CountryConfig (Locale : Type) : Type := mkCountryConfig {
  code : string;
  name : string;
  locale : Locale
}.
Arguments mkCountryConfig {Locale} _ _ _.
Arguments code {Locale} _.
Arguments name {Locale} _.
Arguments locale {Locale} _.

(** Lines 102-109. *)
Record UserInfo : Type := mkUserInfo {
  firstName : string;
  lastName : string;
  birthday : string;
  phone : string;
  password : string;
  email : string
}.

(** The object literal handed to [addIdentity] (lines 559-568). *)
Record SavedIdentity : Type := mkSavedIdentity {
  saved_firstName : string;
  saved_lastName : string;
  saved_birthday : string;
  saved_phone : string;
  saved_password : string;
  saved_email : string;
  saved_countryCode : string;
  saved_countryName : string
}.

(** The JSON answer of [/api/ip-info] as far as lines 615-617 read it. *)
Record IpData : Type := mkIpData {
  data_ip : option string;
  data_country : option string;
  data_accurate : bool
}.

Record IpInfo : Type := mkIpInfo {
  ip : string;
  country : string
}.

Inductive SaveStatus : Type := idle | saving | saved.

(** ** What the page imports (lines 6, 10-18)

    A generator reads and advances [World] (its random source and whatever
    else it touches) and either returns or throws.  [getCountryConfig]
    finds a country, returns [undefined], or throws. *)
Class Imports : Type := {
  Locale : Type;
  Locale_eq_dec :: EqDecision Locale;
  World : Type;
  countries_0 : CountryConfig Locale;     (* countries[0] *)
  generateName : string -> World -> World * (exn + string * string);
  generateBirthday : World -> World * (exn + string);
  generatePhone : CountryConfig Locale -> World -> World * (exn + string);
  generatePassword : World -> World * (exn + string);
  generateEmail : string -> string -> option string -> World -> World * (exn + string);
  getCountryConfig : string -> exn + option (CountryConfig Locale);
  getAllDomains : list string
}.

#[global] Instance CountryConfig_eq_dec (L : Type) `{EqDecision L} :
  EqDecision (CountryConfig L).
Proof. solve_decision. Defined.

#[global] Instance UserInfo_eq_dec : EqDecision UserInfo.
Proof. solve_decision. Defined.

#[global] Instance SavedIdentity_eq_dec : EqDecision SavedIdentity.
Proof. solve_decision. Defined.

#[global] Instance SaveStatus_eq_dec : EqDecision SaveStatus.
Proof. solve_decision. Defined.

(** ** The saved-identity store *)

(** Modelled from the spec: [addIdentity] and [isIdentitySaved] of
    [@/lib/identityData] are not part of the page; the spec describes the
    store as "simple key-indexed storage keyed by email". *)
Definition addIdentity (i : SavedIdentity) (st : gmap string SavedIdentity)
  : gmap string SavedIdentity :=
  <[saved_email i := i]> st.

Definition isIdentitySaved (e : string) (st : gmap string SavedIdentity) : bool :=
  bool_decide (is_Some (st !! e)).

Section Page.

Context `{Imports}.

(** ** Running the generators

    [calls] records every generator invocation with the arguments it
    received, oldest first; it is an observer, no code reads it. *)
Inductive Call : Type :=
| CallName (countryCode : string)
| CallBirthday
| CallPhone (c : CountryConfig Locale)
| CallPassword
| CallEmail (firstName lastName : string) (customDomain : option string).

Record Run : Type := mkRun {
  world : World;
  calls : list Call
}.

(** A computation that advances the world, and returns or throws. *)
Definition Gen (A : Type) : Type := Run -> Run * (exn + A).

Definition ret {A : Type} (x : A) : Gen A := fun r => (r, inr x).

Definition bind {A B : Type} (m : Gen A) (k : A -> Gen B) : Gen B :=
  fun r =>
    match m r with
    | (r', inl e) => (r', inl e)
    | (r', inr x) => k x r'
    end.

Definition invoke {A : Type} (c : Call) (f : World -> World * (exn + A)) : Gen A :=
  fun r =>
    let (w', outcome) := f (world r) in
    ({| world := w'; calls := calls r ++ [c] |}, outcome).

Notation "x <- m ;; k" := (bind m (fun x => k))
  (at level 100, m at next level, right associativity).

(** Line 541 and line 646. *)
Definition customDomain (selectedDomain : string) : option string :=
  if String.eqb selectedDomain "random" then None else Some selectedDomain.

(** The body of the [try] block before [setUserInfo]: lines 537-542 in
    [generate], and the same six lines again at 642-647 in the
    initial-generation effect. *)
Definition compose_identity (selectedCountry : CountryConfig Locale)
    (selectedDomain : string) : Gen UserInfo :=
  generated <- invoke (CallName (code selectedCountry))
                      (generateName (code selectedCountry)) ;;
  let '(firstName, lastName) := generated in
  birthday <- invoke CallBirthday generateBirthday ;;
  phone <- invoke (CallPhone selectedCountry) (generatePhone selectedCountry) ;;
  password <- invoke CallPassword generatePassword ;;
  let customDomain := customDomain selectedDomain in
  email <- invoke (CallEmail firstName lastName customDomain)
                  (generateEmail firstName lastName customDomain) ;;
  ret {| firstName := firstName; lastName := lastName; birthday := birthday;
         phone := phone; password := password; email := email |}.

(** ** The state cells of [GlassStylePage] (lines 473-489)

    The cells that only drive presentation ([isImmersive], [inboxStatus],
    [showMenu], [showMenuGuide]) are left out: no handler below reads or
    writes them. *)
Record Page : Type := mkPage {
  selectedCountry : CountryConfig Locale;    (* line 473 *)
  selectedDomain : string;                   (* line 474 *)
  userInfo : UserInfo;                       (* line 475 *)
  showCountrySheet : bool;                   (* line 478 *)
  showDomainSheet : bool;                    (* line 479 *)
  ipInfo : IpInfo;                           (* line 480 *)
  isInitialized : bool;                      (* line 481 *)
  copiedField : option string;               (* line 483 *)
  saveStatus : SaveStatus;                   (* line 486 *)
  isSaved : bool;                            (* line 487 *)
  isGenerating : bool                        (* line 489 *)
}.

(** The setters returned by [useState]. *)
Definition setSelectedCountry (v : CountryConfig Locale) (p : Page) : Page :=
  {| selectedCountry := v;
     selectedDomain := selectedDomain p;
     userInfo := userInfo p;
     showCountrySheet := showCountrySheet p;
     showDomainSheet := showDomainSheet p;
     ipInfo := ipInfo p;
     isInitialized := isInitialized p;
     copiedField := copiedField p;
     saveStatus := saveStatus p;
     isSaved := isSaved p;
     isGenerating := isGenerating p |}.

Definition setSelectedDomain (v : string) (p : Page) : Page :=
  {| selectedCountry := selectedCountry p;
     selectedDomain := v;
     userInfo := userInfo p;
     showCountrySheet := showCountrySheet p;
     showDomainSheet := showDomainSheet p;
     ipInfo := ipInfo p;
     isInitialized := isInitialized p;
     copiedField := copiedField p;
     saveStatus := saveStatus p;
     isSaved := isSaved p;
     isGenerating := isGenerating p |}.

Definition setUserInfo (v : UserInfo) (p : Page) : Page :=
  {| selectedCountry := selectedCountry p;
     selectedDomain := selectedDomain p;
     userInfo := v;
     showCountrySheet := showCountrySheet p;
     showDomainSheet := showDomainSheet p;
     ipInfo := ipInfo p;
     isInitialized := isInitialized p;
     copiedField := copiedField p;
     saveStatus := saveStatus p;
     isSaved := isSaved p;
     isGenerating := isGenerating p |}.

Definition setShowCountrySheet (v : bool) (p : Page) : Page :=
  {| selectedCountry := selectedCountry p;
     selectedDomain := selectedDomain p;
     userInfo := userInfo p;
     showCountrySheet := v;
     showDomainSheet := showDomainSheet p;
     ipInfo := ipInfo p;
     isInitialized := isInitialized p;
     copiedField := copiedField p;
     saveStatus := saveStatus p;
     isSaved := isSaved p;
     isGenerating := isGenerating p |}.

Definition setShowDomainSheet (v : bool) (p : Page) : Page :=
  {| selectedCountry := selectedCountry p;
     selectedDomain := selectedDomain p;
     userInfo := userInfo p;
     showCountrySheet := showCountrySheet p;
     showDomainSheet := v;
     ipInfo := ipInfo p;
     isInitialized := isInitialized p;
     copiedField := copiedField p;
     saveStatus := saveStatus p;
     isSaved := isSaved p;
     isGenerating := isGenerating p |}.

Definition setIpInfo (v : IpInfo) (p : Page) : Page :=
  {| selectedCountry := selectedCountry p;
     selectedDomain := selectedDomain p;
     userInfo := userInfo p;
     showCountrySheet := showCountrySheet p;
     showDomainSheet := showDomainSheet p;
     ipInfo := v;
     isInitialized := isInitialized p;
     copiedField := copiedField p;
     saveStatus := saveStatus p;
     isSaved := isSaved p;
     isGenerating := isGenerating p |}.

Definition setIsInitialized (v : bool) (p : Page) : Page :=
  {| selectedCountry := selectedCountry p;
     selectedDomain := selectedDomain p;
     userInfo := userInfo p;
     showCountrySheet := showCountrySheet p;
     showDomainSheet := showDomainSheet p;
     ipInfo := ipInfo p;
     isInitialized := v;
     copiedField := copiedField p;
     saveStatus := saveStatus p;
     isSaved := isSaved p;
     isGenerating := isGenerating p |}.

Definition setCopiedField (v : option string) (p : Page) : Page :=
  {| selectedCountry := selectedCountry p;
     selectedDomain := selectedDomain p;
     userInfo := userInfo p;
     showCountrySheet := showCountrySheet p;
     showDomainSheet := showDomainSheet p;
     ipInfo := ipInfo p;
     isInitialized := isInitialized p;
     copiedField := v;
     saveStatus := saveStatus p;
     isSaved := isSaved p;
     isGenerating := isGenerating p |}.

Definition setSaveStatus (v : SaveStatus) (p : Page) : Page :=
  {| selectedCountry := selectedCountry p;
     selectedDomain := selectedDomain p;
     userInfo := userInfo p;
     showCountrySheet := showCountrySheet p;
     showDomainSheet := showDomainSheet p;
     ipInfo := ipInfo p;
     isInitialized := isInitialized p;
     copiedField := copiedField p;
     saveStatus := v;
     isSaved := isSaved p;
     isGenerating := isGenerating p |}.

Definition setIsSaved (v : bool) (p : Page) : Page :=
  {| selectedCountry := selectedCountry p;
     selectedDomain := selectedDomain p;
     userInfo := userInfo p;
     showCountrySheet := showCountrySheet p;
     showDomainSheet := showDomainSheet p;
     ipInfo := ipInfo p;
     isInitialized := isInitialized p;
     copiedField := copiedField p;
     saveStatus := saveStatus p;
     isSaved := v;
     isGenerating := isGenerating p |}.

Definition setIsGenerating (v : bool) (p : Page) : Page :=
  {| selectedCountry := selectedCountry p;
     selectedDomain := selectedDomain p;
     userInfo := userInfo p;
     showCountrySheet := showCountrySheet p;
     showDomainSheet := showDomainSheet p;
     ipInfo := ipInfo p;
     isInitialized := isInitialized p;
     copiedField := copiedField p;
     saveStatus := saveStatus p;
     isSaved := isSaved p;
     isGenerating := v |}.

(** ** The page together with what surrounds it

    A callback keeps the values its closure captured when the render that
    created it ran: [generate] captures [selectedCountry] and
    [selectedDomain] (line 550), the timer of line 558 captures [userInfo]
    and [selectedCountry] (line 578). *)
Record IdleCallback : Type := mkIdleCallback {
  idle_selectedCountry : CountryConfig Locale;
  idle_selectedDomain : string
}.

Record SaveTimer : Type := mkSaveTimer {
  timer_userInfo : UserInfo;
  timer_selectedCountry : CountryConfig Locale
}.

Record App : Type := mkApp {
  page : Page;                                   (* the React state *)
  run : Run;                                     (* the generators' world and call log *)
  console : list exn;                            (* console.error, oldest first *)
  storage : gmap string SavedIdentity;           (* the saved-identity store *)
  added : list SavedIdentity;                    (* arguments of addIdentity, oldest first *)
  idleCallbacks : list IdleCallback;             (* requestIdleCallback queue *)
  saveTimers : list SaveTimer;                   (* pending timers of line 558 *)
  resetTimer : bool;                             (* saveTimerRef: the timer of line 574 is pending *)
  initializing : bool                            (* initializeApp awaits the IP service *)
}.

Definition with_page (v : Page) (a : App) : App :=
  {| page := v;
     run := run a;
     console := console a;
     storage := storage a;
     added := added a;
     idleCallbacks := idleCallbacks a;
     saveTimers := saveTimers a;
     resetTimer := resetTimer a;
     initializing := initializing a |}.

Definition with_run (v : Run) (a : App) : App :=
  {| page := page a;
     run := v;
     console := console a;
     storage := storage a;
     added := added a;
     idleCallbacks := idleCallbacks a;
     saveTimers := saveTimers a;
     resetTimer := resetTimer a;
     initializing := initializing a |}.

Definition with_console (v : list exn) (a : App) : App :=
  {| page := page a;
     run := run a;
     console := v;
     storage := storage a;
     added := added a;
     idleCallbacks := idleCallbacks a;
     saveTimers := saveTimers a;
     resetTimer := resetTimer a;
     initializing := initializing a |}.

Definition with_storage (v : gmap string SavedIdentity) (a : App) : App :=
  {| page := page a;
     run := run a;
     console := console a;
     storage := v;
     added := added a;
     idleCallbacks := idleCallbacks a;
     saveTimers := saveTimers a;
     resetTimer := resetTimer a;
     initializing := initializing a |}.

Definition with_added (v : list SavedIdentity) (a : App) : App :=
  {| page := page a;
     run := run a;
     console := console a;
     storage := storage a;
     added := v;
     idleCallbacks := idleCallbacks a;
     saveTimers := saveTimers a;
     resetTimer := resetTimer a;
     initializing := initializing a |}.

Definition with_idleCallbacks (v : list IdleCallback) (a : App) : App :=
  {| page := page a;
     run := run a;
     console := console a;
     storage := storage a;
     added := added a;
     idleCallbacks := v;
     saveTimers := saveTimers a;
     resetTimer := resetTimer a;
     initializing := initializing a |}.

Definition with_saveTimers (v : list SaveTimer) (a : App) : App :=
  {| page := page a;
     run := run a;
     console := console a;
     storage := storage a;
     added := added a;
     idleCallbacks := idleCallbacks a;
     saveTimers := v;
     resetTimer := resetTimer a;
     initializing := initializing a |}.

Definition with_resetTimer (v : bool) (a : App) : App :=
  {| page := page a;
     run := run a;
     console := console a;
     storage := storage a;
     added := added a;
     idleCallbacks := idleCallbacks a;
     saveTimers := saveTimers a;
     resetTimer := v;
     initializing := initializing a |}.

Definition with_initializing (v : bool) (a : App) : App :=
  {| page := page a;
     run := run a;
     console := console a;
     storage := storage a;
     added := added a;
     idleCallbacks := idleCallbacks a;
     saveTimers := saveTimers a;
     resetTimer := resetTimer a;
     initializing := v |}.

Definition on_page (f : Page -> Page) (a : App) : App :=
  with_page (f (page a)) a.

(** ** Handlers

    A handler reads the cells of the render that created it ([render])
    and queues its updates on the current state. *)

(** [generate] (lines 527-550): the synchronous part up to
    [requestIdleCallback].  [haptic] only vibrates the device. *)
Definition generate (render : Page) (a : App) : App :=
  let a := on_page (setIsGenerating true) a in
  let a := on_page (setCopiedField None) a in
  let a := on_page (setSaveStatus idle) a in
  let a := on_page (setIsSaved false) a in
  with_idleCallbacks
    (idleCallbacks a ++ [{| idle_selectedCountry := selectedCountry render;
                            idle_selectedDomain := selectedDomain render |}]) a.

(** The function handed to [requestIdleCallback] (lines 535-549), with
    its [try], [catch] and [finally]. *)
Definition idle_callback (cb : IdleCallback) (a : App) : App :=
  let a :=
    match compose_identity (idle_selectedCountry cb) (idle_selectedDomain cb) (run a) with
    | (r, inr u) => on_page (setUserInfo u) (with_run r a)
    | (r, inl error) => with_console (console a ++ [error]) (with_run r a)
    end in
  on_page (setIsGenerating false) a.

(** [handleSaveIdentity] (lines 552-578) up to [setTimeout]. *)
Definition handleSaveIdentity (render : Page) (a : App) : App :=
  if bool_decide (saveStatus render = saving) || isSaved render
     || negb (truthy (email (userInfo render)))
  then a
  else
    let a := on_page (setSaveStatus saving) a in
    with_saveTimers
      (saveTimers a ++ [{| timer_userInfo := userInfo render;
                           timer_selectedCountry := selectedCountry render |}]) a.

(** The function handed to [setTimeout] at line 558. *)
Definition save_timer (t : SaveTimer) (a : App) : App :=
  let i := {| saved_firstName := firstName (timer_userInfo t);
              saved_lastName := lastName (timer_userInfo t);
              saved_birthday := birthday (timer_userInfo t);
              saved_phone := phone (timer_userInfo t);
              saved_password := password (timer_userInfo t);
              saved_email := email (timer_userInfo t);
              saved_countryCode := code (timer_selectedCountry t);
              saved_countryName := name (timer_selectedCountry t) |} in
  let a := with_added (added a ++ [i]) (with_storage (addIdentity i (storage a)) a) in
  let a := on_page (setSaveStatus saved) a in
  let a := on_page (setIsSaved true) a in
  with_resetTimer true a.

(** The function handed to [setTimeout] at line 574. *)
Definition reset_timer (a : App) : App :=
  with_resetTimer false (on_page (setSaveStatus idle) a).

(** [handleCountrySelect] (lines 662-666) and [handleDomainSelect]
    (lines 668-672). *)
Definition handleCountrySelect (country : CountryConfig Locale) (a : App) : App :=
  on_page (setShowCountrySheet false) (on_page (setSelectedCountry country) a).

Definition handleDomainSelect (domain : string) (a : App) : App :=
  on_page (setShowDomainSheet false) (on_page (setSelectedDomain domain) a).

(** ** [initializeApp] (lines 600-630)

    [response] is what the two awaits of lines 606-611 deliver: the parsed
    answer, or the rejection of the fetch, of the timeout or of [json()].
    [isMounted] is the flag of line 599 when the function resumes. *)
Definition or_default (o : option string) (d : string) : string :=
  match o with
  | Some s => if truthy s then s else d
  | None => d
  end.

(** The [try] block from line 613 on: the page so far, and whether it threw. *)
Definition initializeApp_try (isMounted : bool) (data : IpData) (p : Page)
  : Page * bool :=
  if negb isMounted then (p, false)
  else
    let p := setIpInfo {| ip := or_default (data_ip data) "未知";
                          country := or_default (data_country data) "US" |} p in
    match data_country data with
    | Some c =>
        if truthy c && data_accurate data then
          match getCountryConfig c with
          | inl _ => (p, true)
          | inr (Some detectedCountry) => (setSelectedCountry detectedCountry p, false)
          | inr None => (p, false)
          end
        else (p, false)
    | None => (p, false)
    end.

Definition initializeApp_catch (isMounted : bool) (p : Page) : Page :=
  if isMounted then setIpInfo {| ip := "检测失败"; country := "US" |} p else p.

Definition initializeApp_finally (isMounted : bool) (p : Page) : Page :=
  if isMounted then setIsInitialized true p else p.

Definition initializeApp (isMounted : bool) (response : exn + IpData) (p : Page)
  : Page :=
  let p :=
    match response with
    | inl _ => initializeApp_catch isMounted p
    | inr data =>
        match initializeApp_try isMounted data p with
        | (p, true) => initializeApp_catch isMounted p
        | (p, false) => p
        end
    end in
  initializeApp_finally isMounted p.

(** ** Effects

    After a render React runs the effects whose dependencies differ from
    the previous render's.  An effect reads the cells of the render that
    created it; its updates are queued and show in the next render.
    Object identity of a country is modelled by equality of its value. *)

(** Lines 580-584; dependencies [userInfo.email]. *)
Definition effect_isSaved (render : Page) (a : App) : App :=
  if truthy (email (userInfo render))
  then on_page (setIsSaved (isIdentitySaved (email (userInfo render)) (storage a))) a
  else a.

(** Lines 639-653; dependencies [isInitialized], [userInfo.firstName],
    [selectedCountry], [selectedDomain]. *)
Definition effect_initial (render : Page) (a : App) : App :=
  if isInitialized render && negb (truthy (firstName (userInfo render))) then
    match compose_identity (selectedCountry render) (selectedDomain render) (run a) with
    | (r, inr u) => on_page (setUserInfo u) (with_run r a)
    | (r, inl e) => with_console (console a ++ [e]) (with_run r a)
    end
  else a.

(** Lines 655-657; dependencies [selectedCountry.code]. *)
Definition effect_country (render : Page) (a : App) : App :=
  if isInitialized render && truthy (firstName (userInfo render))
  then generate render a
  else a.

Definition deps_isSaved (p : Page) : string := email (userInfo p).

Definition deps_initial (p : Page)
  : bool * string * CountryConfig Locale * string :=
  (isInitialized p, firstName (userInfo p), selectedCountry p, selectedDomain p).

Definition deps_country (p : Page) : string := code (selectedCountry p).

(** One commit: the effects of the render of [page a], in the order the
    component declares them, each only if its dependencies changed since
    the render [prev]. *)
Definition commit (prev : Page) (a : App) : App :=
  let render := page a in
  let a :=
    if bool_decide (deps_isSaved render = deps_isSaved prev) then a
    else effect_isSaved render a in
  let a :=
    if bool_decide (deps_initial render = deps_initial prev) then a
    else effect_initial render a in
  if bool_decide (deps_country render = deps_country prev) then a
  else effect_country render a.

(** The updates queued by a commit cause one more render and commit;
    after that nothing is left to run ([commit_settled] below). *)
Definition rerender (prev : Page) (a : App) : App :=
  commit (page a) (commit prev a).

(** ** Events

    [PressGenerate] and [PressSave] are calls of the two handlers, the way
    the shortcuts of lines 720-728 make them in every state.  The buttons
    make the same calls, but only where they are rendered and enabled
    (lines 787, 864 and 880); [click_generate] and [click_save] below
    model them with those guards. *)

Inductive Event : Type :=
| PressGenerate                       (* [generate] is called: Ctrl+G, or a click on
                                         the button of line 863 while it is enabled *)
| IdleCallbackRuns                    (* the oldest idle callback *)
| PressSave                           (* [handleSaveIdentity] is called: Ctrl+S, or a
                                         click on the button of line 879 *)
| SaveTimerFires                      (* the oldest timer of line 558 *)
| ResetTimerFires                     (* the timer of line 574 *)
| ChooseCountry (c : CountryConfig Locale)
| ChooseDomain (d : string)
| IpAnswer (response : exn + IpData). (* initializeApp resumes *)

Definition handle (ev : Event) (a : App) : App :=
  match ev with
  | PressGenerate => generate (page a) a
  | IdleCallbackRuns =>
      match idleCallbacks a with
      | cb :: rest => idle_callback cb (with_idleCallbacks rest a)
      | [] => a
      end
  | PressSave => handleSaveIdentity (page a) a
  | SaveTimerFires =>
      match saveTimers a with
      | t :: rest => save_timer t (with_saveTimers rest a)
      | [] => a
      end
  | ResetTimerFires => if resetTimer a then reset_timer a else a
  | ChooseCountry c => handleCountrySelect c a
  | ChooseDomain d => handleDomainSelect d a
  | IpAnswer response =>
      if initializing a
      then with_initializing false (on_page (initializeApp true response) a)
      else a
  end.

Definition step (a : App) (ev : Event) : App :=
  rerender (page a) (handle ev a).

Definition steps (a : App) (evs : list Event) : App :=
  fold_left step evs a.

(** The first render (lines 473-489) with its effects run: none of them
    does anything yet, and [initializeApp] is waiting. *)
Definition blank : UserInfo :=
  {| firstName := ""; lastName := ""; birthday := ""; phone := "";
     password := ""; email := "" |}.

Definition initial_page : Page :=
  {| selectedCountry := countries_0;
     selectedDomain := "random";
     userInfo := blank;
     showCountrySheet := false;
     showDomainSheet := false;
     ipInfo := {| ip := "..."; country := "US" |};
     isInitialized := false;
     copiedField := None;
     saveStatus := idle;
     isSaved := false;
     isGenerating := false |}.

Definition mount (w : World) (st : gmap string SavedIdentity) : App :=
  {| page := initial_page;
     run := {| world := w; calls := [] |};
     console := [];
     storage := st;
     added := [];
     idleCallbacks := [];
     saveTimers := [];
     resetTimer := false;
     initializing := true |}.

(** ** Observing a composition *)

Inductive Generator : Type := Name | Birthday | Phone | Password | Email.

#[global] Instance Generator_eq_dec : EqDecision Generator.
Proof. solve_decision. Defined.

Definition generator_of (c : Call) : Generator :=
  match c with
  | CallName _ => Name
  | CallBirthday => Birthday
  | CallPhone _ => Phone
  | CallPassword => Password
  | CallEmail _ _ _ => Email
  end.

(** How often [g] was invoked in a call log. *)
Definition invocations (g : Generator) (cs : list Call) : nat :=
  length (List.filter (fun c => bool_decide (generator_of c = g)) cs).

(** The calls made between two points of a run. *)
Definition made (before after : Run) : list Call :=
  drop (length (calls before)) (calls after).

(** The five calls of a composition that runs to its end, given the name
    the Name Generator returned. *)
Definition planned (selectedCountry : CountryConfig Locale) (selectedDomain : string)
    (firstName lastName : string) : list Call :=
  [CallName (code selectedCountry); CallBirthday; CallPhone selectedCountry;
   CallPassword; CallEmail firstName lastName (customDomain selectedDomain)].

(** Some generator throws [e] in the composition started in world [w0]. *)
Inductive throws_during (selectedCountry : CountryConfig Locale)
    (selectedDomain : string) (w0 : World) (e : exn) : Prop :=
| name_throws w1 :
    generateName (code selectedCountry) w0 = (w1, inl e) ->
    throws_during selectedCountry selectedDomain w0 e
| birthday_throws w1 n w2 :
    generateName (code selectedCountry) w0 = (w1, inr n) ->
    generateBirthday w1 = (w2, inl e) ->
    throws_during selectedCountry selectedDomain w0 e
| phone_throws w1 n w2 b w3 :
    generateName (code selectedCountry) w0 = (w1, inr n) ->
    generateBirthday w1 = (w2, inr b) ->
    generatePhone selectedCountry w2 = (w3, inl e) ->
    throws_during selectedCountry selectedDomain w0 e
| password_throws w1 n w2 b w3 ph w4 :
    generateName (code selectedCountry) w0 = (w1, inr n) ->
    generateBirthday w1 = (w2, inr b) ->
    generatePhone selectedCountry w2 = (w3, inr ph) ->
    generatePassword w3 = (w4, inl e) ->
    throws_during selectedCountry selectedDomain w0 e
| email_throws w1 n w2 b w3 ph w4 pw w5 :
    generateName (code selectedCountry) w0 = (w1, inr n) ->
    generateBirthday w1 = (w2, inr b) ->
    generatePhone selectedCountry w2 = (w3, inr ph) ->
    generatePassword w3 = (w4, inr pw) ->
    generateEmail n.1 n.2 (customDomain selectedDomain) w4 = (w5, inl e) ->
    throws_during selectedCountry selectedDomain w0 e.

(** Every generator returns in the composition started in world [w0],
    and [u] holds what they returned. *)
Definition all_return (selectedCountry : CountryConfig Locale)
    (selectedDomain : string) (w0 : World) (u : UserInfo) : Prop :=
  exists w1 w2 w3 w4 w5,
    generateName (code selectedCountry) w0 = (w1, inr (firstName u, lastName u))
    /\ generateBirthday w1 = (w2, inr (birthday u))
    /\ generatePhone selectedCountry w2 = (w3, inr (phone u))
    /\ generatePassword w3 = (w4, inr (password u))
    /\ generateEmail (firstName u) (lastName u) (customDomain selectedDomain) w4
       = (w5, inr (email u)).

(** "Each generator is invoked exactly once" in the composition started
    from [r]. *)
Definition each_invoked_once (selectedCountry : CountryConfig Locale)
    (selectedDomain : string) (r : Run) : Prop :=
  forall g : Generator,
    invocations g (made r (compose_identity selectedCountry selectedDomain r).1) = 1%nat.

(** The order in which the [try] blocks of lines 537-542 and 642-647 name
    the generators, and the place of each in it. *)
Definition invocation_order : list Generator :=
  [Name; Birthday; Phone; Password; Email].

Definition position (g : Generator) : nat :=
  match g with
  | Name => 1
  | Birthday => 2
  | Phone => 3
  | Password => 4
  | Email => 5
  end.

(** In the composition started in world [w0], [g] is the generator that
    throws, with [e]: every generator before [g] returns, each run in the
    world the one before it left. *)
Inductive throws_at (selectedCountry : CountryConfig Locale)
    (selectedDomain : string) (w0 : World) : Generator -> exn -> Prop :=
| throws_at_name w1 e :
    generateName (code selectedCountry) w0 = (w1, inl e) ->
    throws_at selectedCountry selectedDomain w0 Name e
| throws_at_birthday w1 n w2 e :
    generateName (code selectedCountry) w0 = (w1, inr n) ->
    generateBirthday w1 = (w2, inl e) ->
    throws_at selectedCountry selectedDomain w0 Birthday e
| throws_at_phone w1 n w2 b w3 e :
    generateName (code selectedCountry) w0 = (w1, inr n) ->
    generateBirthday w1 = (w2, inr b) ->
    generatePhone selectedCountry w2 = (w3, inl e) ->
    throws_at selectedCountry selectedDomain w0 Phone e
| throws_at_password w1 n w2 b w3 ph w4 e :
    generateName (code selectedCountry) w0 = (w1, inr n) ->
    generateBirthday w1 = (w2, inr b) ->
    generatePhone selectedCountry w2 = (w3, inr ph) ->
    generatePassword w3 = (w4, inl e) ->
    throws_at selectedCountry selectedDomain w0 Password e
| throws_at_email w1 n w2 b w3 ph w4 pw w5 e :
    generateName (code selectedCountry) w0 = (w1, inr n) ->
    generateBirthday w1 = (w2, inr b) ->
    generatePhone selectedCountry w2 = (w3, inr ph) ->
    generatePassword w3 = (w4, inr pw) ->
    generateEmail n.1 n.2 (customDomain selectedDomain) w4 = (w5, inl e) ->
    throws_at selectedCountry selectedDomain w0 Email e.

(** "Changing only the selected email domain does not regenerate the
    identity": choosing the domain [d] invokes no generator and leaves the
    displayed record as it is. *)
Definition domain_change_regenerates_nothing (a : App) (d : string) : Prop :=
  calls (run (step a (ChooseDomain d))) = calls (run a)
  /\ userInfo (page (step a (ChooseDomain d))) = userInfo (page a).

(** "The request runs synchronously to completion or failure": when the
    handler of a generation request returns, [Generating] has resolved. *)
Definition resolved_on_return (a : App) : Prop :=
  isGenerating (page (generate (page a) a)) = false.

(** "Saved at most once per email": no two [addIdentity] calls carry the
    same email. *)
Definition saved_once_per_email (a : App) : Prop :=
  NoDup (saved_email <$> added a).

End Page.

(** ** The engine as the spec words it *)

Module Spec.
Section Engine.

Context `{Imports}.

(** Modelled from the spec: [isRandomSentinel] of the Domain Registry
    (section 4.2); the reserved value is ["random"] (section 3). *)
Definition isRandomSentinel (value : string) : bool :=
  String.eqb value "random".

(** Modelled from the spec: the whitespace of "a syntactically plausible
    domain (contains a dot, no whitespace)" (section 4.7), taken as the
    space and the control characters from tab to carriage return. *)
Definition is_whitespace (c : ascii) : bool :=
  let n := nat_of_ascii c in
  Nat.eqb n 32 || (Nat.leb 9 n && Nat.leb n 13).

(** Modelled from the spec: "no whitespace" (section 4.7). *)
Fixpoint has_whitespace (s : string) : bool :=
  match s with
  | EmptyString => false
  | String c s' => is_whitespace c || has_whitespace s'
  end.

(** Modelled from the spec: the validation of an explicit domain choice
    (section 4.7), "contains a dot, no whitespace". *)
Definition plausible_domain (d : string) : bool :=
  includes d "." && negb (has_whitespace d).

(** Modelled from the spec: the domain resolution of the Email Composer's
    [compose(firstName, lastName, domainChoice)] (section 4.7).  "If
    domainChoice equals the random sentinel or is absent, draw one domain
    uniformly from the Domain Registry; otherwise use domainChoice verbatim
    after validating it is a syntactically plausible domain.  Fails with
    InvalidDomainError if an explicit domainChoice is syntactically
    invalid."  Building the local part, drawing from the registry and
    appending the domain are what the composer of the repository,
    [generateEmail], does with an absent or a given third argument. *)
Definition compose (firstName lastName : string) (domainChoice : option string)
    (w : World) : World * (exn + string) :=
  match domainChoice with
  | None => generateEmail firstName lastName None w
  | Some d =>
      if isRandomSentinel d then generateEmail firstName lastName None w
      else if plausible_domain d then generateEmail firstName lastName (Some d) w
      else (w, inl "InvalidDomainError")
  end.

(** Modelled from the spec: the single entry point
    [generateIdentity(countryConfig, domainChoice) -> IdentityRecord | Error]
    (section 6), which the page does not import.  "The Engine invokes each
    generator once, composes the email last, and returns the full record";
    "any generator failure aborts the whole composition and surfaces a
    single tagged error". *)
Definition generateIdentity (countryConfig : CountryConfig Locale)
    (domainChoice : option string) (w : World) : World * (exn + UserInfo) :=
  match generateName (code countryConfig) w with
  | (w, inl e) => (w, inl e)
  | (w, inr (first, last)) =>
      match generateBirthday w with
      | (w, inl e) => (w, inl e)
      | (w, inr born) =>
          match generatePhone countryConfig w with
          | (w, inl e) => (w, inl e)
          | (w, inr number) =>
              match generatePassword w with
              | (w, inl e) => (w, inl e)
              | (w, inr secret) =>
                  match compose first last domainChoice w with
                  | (w, inl e) => (w, inl e)
                  | (w, inr address) =>
                      (w, inr {| firstName := first; lastName := last;
                                 birthday := born; phone := number;
                                 password := secret; email := address |})
                  end
              end
          end
      end
  end.

End Engine.
End Spec.

(** ** A sample library

    A small instance of [Imports] on which the page can be run: three
    countries, one of them with empty name pools, generators that draw by
    a counter, and a name generator that fails as section 4.3 of the spec
    says ("fails with ConfigError if either pool is empty"). *)

Module Sample.

Record Pools : Type := mkPools {
  firstNamePool : list string;
  lastNamePool : list string
}.

#[global] Instance Pools_eq_dec : EqDecision Pools.
Proof. solve_decision. Defined.

Definition us : CountryConfig Pools :=
  {| code := "US"; name := "United States";
     locale := {| firstNamePool := ["John"; "Mary"];
                  lastNamePool := ["Smith"; "Jones"] |} |}.

Definition de : CountryConfig Pools :=
  {| code := "DE"; name := "Germany";
     locale := {| firstNamePool := ["Anna"; "Lukas"];
                  lastNamePool := ["Schmidt"; "Weber"] |} |}.

Definition aq : CountryConfig Pools :=
  {| code := "AQ"; name := "Antarctica";
     locale := {| firstNamePool := []; lastNamePool := [] |} |}.

Definition countries : list (CountryConfig Pools) := [us; de; aq].

Definition lookup (c : string) : option (CountryConfig Pools) :=
  List.find (fun k => String.eqb (code k) c) countries.

Definition pick (pool : list string) (w : nat) : option string :=
  pool !! (w mod length pool)%nat.

Definition digit (w : nat) : string :=
  String (ascii_of_nat (48 + w mod 10)) EmptyString.

Definition domains : list string :=
  ["yopmail.com"; "Example.org"; "mail.example.com"; "inbox.test"].

Definition name_of (c : string) (w : nat) : nat * (exn + string * string) :=
  match lookup c with
  | None => (w, inl "NotFoundError")
  | Some k =>
      match pick (firstNamePool (locale k)) w, pick (lastNamePool (locale k)) w with
      | Some f, Some l => (S w, inr (f, l))
      | _, _ => (w, inl "ConfigError")
      end
  end.

Definition email_of (f l : string) (d : option string) (w : nat)
  : nat * (exn + string) :=
  let dom := match d with
             | Some x => x
             | None => default "yopmail.com" (pick domains w)
             end in
  (S w, inr (toLowerCase_ascii f +:+ toLowerCase_ascii l +:+ digit w +:+ "@" +:+ dom)).

Definition lib : Imports :=
  {| Locale := Pools;
     World := nat;
     countries_0 := us;
     generateName := name_of;
     generateBirthday := fun w => (S w, inr "1990-04-12");
     generatePhone := fun k w => (S w, inr ("+1 555 010" +:+ digit w));
     generatePassword := fun w => (S w, inr ("Aa1!aaaaaaa" +:+ digit w));
     generateEmail := email_of;
     getCountryConfig := fun c => inr (lookup c);
     getAllDomains := domains |}.



(** The page run on the sample library: the IP service answers with
    Germany, and the initial-generation effect fills the record. *)
Definition answer : IpData :=
  {| data_ip := Some "203.0.113.7"; data_country := Some "DE"; data_accurate := true |}.

Definition unknown_answer : IpData :=
  {| data_ip := Some "203.0.113.7"; data_country := Some "ZZ"; data_accurate := true |}.

Definition antarctic_answer : IpData :=
  {| data_ip := Some "203.0.113.7"; data_country := Some "AQ"; data_accurate := true |}.

Definition ready : @App lib :=
  @steps lib (@mount lib 0%nat ∅) [@IpAnswer lib (inr answer)].

(** The record shown in [ready] has been saved and the button is back
    to rest. *)
Definition kept : @App lib :=
  @steps lib ready [@PressSave lib; @SaveTimerFires lib; @ResetTimerFires lib].

(** The IP service answers with the country whose name pools are empty:
    the page is initialised, the initial generation has failed, and the
    record is still the blank one. *)
Definition stranded : @App lib :=
  @steps lib (@mount lib 0%nat ∅) [@IpAnswer lib (inr antarctic_answer)].

End Sample.

(** ** What the domain list renders, and its events *)

Section DomainListView.

Variable toLowerCase : string -> string.

(** Line 441: the "random domain" item. *)
Definition shows_random_item (s : DomainListState) : bool :=
  negb (truthy (filteredQuery s)).

(** Line 457: the loading sentinel under the list. *)
Definition shows_sentinel (allDomains : list string) (s : DomainListState) : bool :=
  visibleCount s
  <? Z.of_nat (length (filteredDomains toLowerCase allDomains (filteredQuery s))).

(** Line 462: the "no match" message. *)
Definition shows_no_match (allDomains : list string) (s : DomainListState) : bool :=
  Nat.eqb (length (filteredDomains toLowerCase allDomains (filteredQuery s))) 0
  && truthy (filteredQuery s).

(** The list with the debounce timer of lines 342-356: the effect sets it
    on mount and whenever [searchQuery] changes, clearing the one before. *)
Record DomainListRun : Type := mkDomainListRun {
  list_state : DomainListState;
  debouncePending : bool
}.

Inductive DomainListEvent : Type :=
| Typed (value : string)      (* the input of line 411 *)
| ClearPressed                (* the button of line 420 *)
| DebounceFires
| SentinelIntersects.

Definition DomainList_mount : DomainListRun :=
  {| list_state := DomainList_initial; debouncePending := true |}.

Definition type_query (value : string) (r : DomainListRun) : DomainListRun :=
  {| list_state := handleSearchChange value (list_state r);
     debouncePending :=
       if bool_decide (value = searchQuery (list_state r))
       then debouncePending r else true |}.

Definition DomainList_step (allDomains : list string) (r : DomainListRun)
    (ev : DomainListEvent) : DomainListRun :=
  match ev with
  | Typed value => type_query value r
  | ClearPressed => type_query "" r
  | DebounceFires =>
      if debouncePending r
      then {| list_state := debounce_fires (list_state r); debouncePending := false |}
      else r
  | SentinelIntersects =>
      {| list_state := sentinel_intersects toLowerCase allDomains (list_state r);
         debouncePending := debouncePending r |}
  end.

Definition DomainList_steps (allDomains : list string) (r : DomainListRun)
    (evs : list DomainListEvent) : DomainListRun :=
  fold_left (DomainList_step allDomains) evs r.

(** What every run of the list keeps. *)
Definition DomainList_kept (r : DomainListRun) : Prop :=
  50 <= visibleCount (list_state r)
  /\ (debouncePending r = false ->
      filteredQuery (list_state r) = searchQuery (list_state r)).

End DomainListView.

(** ** Observing runs of the page *)

Section PageObservations.

Context `{Imports}.

(** The object literal of lines 559-568, built from what the closure of a
    save timer captured. *)
Definition saved_identity (t : SaveTimer) : SavedIdentity :=
  {| saved_firstName := firstName (timer_userInfo t);
     saved_lastName := lastName (timer_userInfo t);
     saved_birthday := birthday (timer_userInfo t);
     saved_phone := phone (timer_userInfo t);
     saved_password := password (timer_userInfo t);
     saved_email := email (timer_userInfo t);
     saved_countryCode := code (timer_selectedCountry t);
     saved_countryName := name (timer_selectedCountry t) |}.

Definition is_PressSave (ev : Event) : bool :=
  match ev with PressSave => true | _ => false end.

Definition is_SaveTimerFires (ev : Event) : bool :=
  match ev with SaveTimerFires => true | _ => false end.

Definition is_save_event (ev : Event) : bool :=
  match ev with
  | PressSave | SaveTimerFires | ResetTimerFires => true
  | _ => false
  end.

(** What every run of the page keeps: a set flag has the callback or the
    timer that will reset it, and nothing without an email is saved or
    about to be saved. *)
Definition page_kept (a : App) : Prop :=
  (isGenerating (page a) = true -> idleCallbacks a <> [])
  /\ (saveStatus (page a) = saving -> saveTimers a <> [])
  /\ (saveStatus (page a) = saved -> resetTimer a = true)
  /\ Forall (fun t => email (timer_userInfo t) <> "") (saveTimers a)
  /\ Forall (fun i => saved_email i <> "") (added a)
  /\ ip (ipInfo (page a)) <> ""
  /\ country (ipInfo (page a)) <> "".

End PageObservations.

(** ** The rest of the page: layers, shortcuts, copying, inbox, guide

    The state cells and refs of [GlassStylePage] that the sections above
    leave out, with the browser objects they talk to. *)

(** [String.prototype.split('@')[0]] (line 591): what precedes the first
    ['@'], or the whole string when there is none. *)
Fixpoint before_at (s : string) : string :=
  match s with
  | EmptyString => EmptyString
  | String c s' => if Ascii.eqb c "@" then EmptyString else String c (before_at s')
  end.

(** No ['@'] occurs in [s]. *)
Fixpoint free_of_at (s : string) : bool :=
  match s with
  | EmptyString => true
  | String c s' => negb (Ascii.eqb c "@") && free_of_at s'
  end.

(** The rows of the identity card (lines 797-801 and 806). *)
Inductive Row : Type :=
| LastNameRow | FirstNameRow | BirthdayRow | PhoneRow | PasswordRow | EmailRow.

(** The label a row hands to [copyToClipboard]. *)
Definition row_label (f : Row) : string :=
  match f with
  | LastNameRow => "姓氏"
  | FirstNameRow => "名字"
  | BirthdayRow => "生日"
  | PhoneRow => "手机号"
  | PasswordRow => "密码"
  | EmailRow => "邮箱"
  end.

(** The text a row hands to [copyToClipboard]. *)
Definition row_text (f : Row) (u : UserInfo) : string :=
  match f with
  | LastNameRow => lastName u
  | FirstNameRow => firstName u
  | BirthdayRow => birthday u
  | PhoneRow => phone u
  | PasswordRow => password u
  | EmailRow => email u
  end.

(** What the value span of a row holds: [InfoRow] renders
    [value || '---'] (line 165), the email row renders [userInfo.email]
    as it is (line 819). *)
Definition row_shown (f : Row) (u : UserInfo) : string :=
  match f with
  | EmailRow => email u
  | _ => if truthy (row_text f u) then row_text f u else "---"
  end.

Inductive InboxStatus : Type := inbox_idle | opening.

(** The part of a [KeyboardEvent] that [handleKeyDown] reads. *)
Record KeyEvent : Type := mkKeyEvent {
  key : string;
  ctrlKey : bool;
  metaKey : bool
}.

(** [localStorage.getItem('hasSeenMenuGuide')] is truthy (line 496). *)
Definition hasSeenGuide (ls : gmap string string) : bool :=
  match ls !! "hasSeenMenuGuide" with
  | Some v => truthy v
  | None => false
  end.

Definition inbox_url (emailName : string) : string :=
  "https://yopmail.net/?login=" +:+ emailName.

Section Shell.

Context `{Imports}.

Record Shell : Type := mkShell {
  shell_app : App;                                  (* the page of the sections above *)
  isImmersive : bool;                               (* line 482 *)
  inboxStatus : InboxStatus;                        (* line 484 *)
  showMenu : bool;                                  (* line 485 *)
  showMenuGuide : bool;                             (* line 488 *)
  localStorage : gmap string string;                (* window.localStorage *)
  guideTimer : bool;                                (* the timer of line 498 is pending *)
  copyTimer : bool;                                 (* copyTimerRef: the timer of line 521 is pending *)
  clipboardWrites : list (string * string);         (* pending writeText calls: text and label *)
  clipboard : option string;                        (* what the clipboard holds *)
  inboxTimers : list string;                        (* pending timers of line 592: emailName *)
  opened : list string                             (* URLs given to window.open, oldest first *)
}.

Definition with_shell_app (v : App) (sh : Shell) : Shell :=
  {| shell_app := v;
     isImmersive := isImmersive sh;
     inboxStatus := inboxStatus sh;
     showMenu := showMenu sh;
     showMenuGuide := showMenuGuide sh;
     localStorage := localStorage sh;
     guideTimer := guideTimer sh;
     copyTimer := copyTimer sh;
     clipboardWrites := clipboardWrites sh;
     clipboard := clipboard sh;
     inboxTimers := inboxTimers sh;
     opened := opened sh |}.

Definition with_isImmersive (v : bool) (sh : Shell) : Shell :=
  {| shell_app := shell_app sh;
     isImmersive := v;
     inboxStatus := inboxStatus sh;
     showMenu := showMenu sh;
     showMenuGuide := showMenuGuide sh;
     localStorage := localStorage sh;
     guideTimer := guideTimer sh;
     copyTimer := copyTimer sh;
     clipboardWrites := clipboardWrites sh;
     clipboard := clipboard sh;
     inboxTimers := inboxTimers sh;
     opened := opened sh |}.

Definition with_inboxStatus (v : InboxStatus) (sh : Shell) : Shell :=
  {| shell_app := shell_app sh;
     isImmersive := isImmersive sh;
     inboxStatus := v;
     showMenu := showMenu sh;
     showMenuGuide := showMenuGuide sh;
     localStorage := localStorage sh;
     guideTimer := guideTimer sh;
     copyTimer := copyTimer sh;
     clipboardWrites := clipboardWrites sh;
     clipboard := clipboard sh;
     inboxTimers := inboxTimers sh;
     opened := opened sh |}.

Definition with_showMenu (v : bool) (sh : Shell) : Shell :=
  {| shell_app := shell_app sh;
     isImmersive := isImmersive sh;
     inboxStatus := inboxStatus sh;
     showMenu := v;
     showMenuGuide := showMenuGuide sh;
     localStorage := localStorage sh;
     guideTimer := guideTimer sh;
     copyTimer := copyTimer sh;
     clipboardWrites := clipboardWrites sh;
     clipboard := clipboard sh;
     inboxTimers := inboxTimers sh;
     opened := opened sh |}.

Definition with_showMenuGuide (v : bool) (sh : Shell) : Shell :=
  {| shell_app := shell_app sh;
     isImmersive := isImmersive sh;
     inboxStatus := inboxStatus sh;
     showMenu := showMenu sh;
     showMenuGuide := v;
     localStorage := localStorage sh;
     guideTimer := guideTimer sh;
     copyTimer := copyTimer sh;
     clipboardWrites := clipboardWrites sh;
     clipboard := clipboard sh;
     inboxTimers := inboxTimers sh;
     opened := opened sh |}.

Definition with_localStorage (v : gmap string string) (sh : Shell) : Shell :=
  {| shell_app := shell_app sh;
     isImmersive := isImmersive sh;
     inboxStatus := inboxStatus sh;
     showMenu := showMenu sh;
     showMenuGuide := showMenuGuide sh;
     localStorage := v;
     guideTimer := guideTimer sh;
     copyTimer := copyTimer sh;
     clipboardWrites := clipboardWrites sh;
     clipboard := clipboard sh;
     inboxTimers := inboxTimers sh;
     opened := opened sh |}.

Definition with_guideTimer (v : bool) (sh : Shell) : Shell :=
  {| shell_app := shell_app sh;
     isImmersive := isImmersive sh;
     inboxStatus := inboxStatus sh;
     showMenu := showMenu sh;
     showMenuGuide := showMenuGuide sh;
     localStorage := localStorage sh;
     guideTimer := v;
     copyTimer := copyTimer sh;
     clipboardWrites := clipboardWrites sh;
     clipboard := clipboard sh;
     inboxTimers := inboxTimers sh;
     opened := opened sh |}.

Definition with_copyTimer (v : bool) (sh : Shell) : Shell :=
  {| shell_app := shell_app sh;
     isImmersive := isImmersive sh;
     inboxStatus := inboxStatus sh;
     showMenu := showMenu sh;
     showMenuGuide := showMenuGuide sh;
     localStorage := localStorage sh;
     guideTimer := guideTimer sh;
     copyTimer := v;
     clipboardWrites := clipboardWrites sh;
     clipboard := clipboard sh;
     inboxTimers := inboxTimers sh;
     opened := opened sh |}.

Definition with_clipboardWrites (v : list (string * string)) (sh : Shell) : Shell :=
  {| shell_app := shell_app sh;
     isImmersive := isImmersive sh;
     inboxStatus := inboxStatus sh;
     showMenu := showMenu sh;
     showMenuGuide := showMenuGuide sh;
     localStorage := localStorage sh;
     guideTimer := guideTimer sh;
     copyTimer := copyTimer sh;
     clipboardWrites := v;
     clipboard := clipboard sh;
     inboxTimers := inboxTimers sh;
     opened := opened sh |}.

Definition with_clipboard (v : option string) (sh : Shell) : Shell :=
  {| shell_app := shell_app sh;
     isImmersive := isImmersive sh;
     inboxStatus := inboxStatus sh;
     showMenu := showMenu sh;
     showMenuGuide := showMenuGuide sh;
     localStorage := localStorage sh;
     guideTimer := guideTimer sh;
     copyTimer := copyTimer sh;
     clipboardWrites := clipboardWrites sh;
     clipboard := v;
     inboxTimers := inboxTimers sh;
     opened := opened sh |}.

Definition with_inboxTimers (v : list string) (sh : Shell) : Shell :=
  {| shell_app := shell_app sh;
     isImmersive := isImmersive sh;
     inboxStatus := inboxStatus sh;
     showMenu := showMenu sh;
     showMenuGuide := showMenuGuide sh;
     localStorage := localStorage sh;
     guideTimer := guideTimer sh;
     copyTimer := copyTimer sh;
     clipboardWrites := clipboardWrites sh;
     clipboard := clipboard sh;
     inboxTimers := v;
     opened := opened sh |}.

Definition with_opened (v : list string) (sh : Shell) : Shell :=
  {| shell_app := shell_app sh;
     isImmersive := isImmersive sh;
     inboxStatus := inboxStatus sh;
     showMenu := showMenu sh;
     showMenuGuide := showMenuGuide sh;
     localStorage := localStorage sh;
     guideTimer := guideTimer sh;
     copyTimer := copyTimer sh;
     clipboardWrites := clipboardWrites sh;
     clipboard := clipboard sh;
     inboxTimers := inboxTimers sh;
     opened := v |}.


Definition on_app (f : App -> App) (sh : Shell) : Shell :=
  with_shell_app (f (shell_app sh)) sh.

(** ** Handlers of the shell

    As before a handler reads the cells of the render that created it
    ([render]) and queues its updates on the current state. *)

(** [toggleImmersive] (lines 510-513) and [handleExitImmersive] (674-676). *)
Definition toggleImmersive (sh : Shell) : Shell :=
  with_isImmersive (negb (isImmersive sh)) sh.

Definition handleExitImmersive (sh : Shell) : Shell :=
  with_isImmersive false sh.

(** Lines 678-703. *)
Definition handleOpenMenu (sh : Shell) : Shell := with_showMenu true sh.
Definition handleCloseMenu (sh : Shell) : Shell := with_showMenu false sh.
Definition handleOpenCountrySheet (sh : Shell) : Shell :=
  on_app (on_page (setShowCountrySheet true)) sh.
Definition handleOpenDomainSheet (sh : Shell) : Shell :=
  on_app (on_page (setShowDomainSheet true)) sh.
Definition handleCloseCountrySheet (sh : Shell) : Shell :=
  on_app (on_page (setShowCountrySheet false)) sh.
Definition handleCloseDomainSheet (sh : Shell) : Shell :=
  on_app (on_page (setShowDomainSheet false)) sh.

(** [handleDismissGuide] (lines 505-508). *)
Definition handleDismissGuide (sh : Shell) : Shell :=
  with_localStorage (<["hasSeenMenuGuide" := "true"]> (localStorage sh))
    (with_showMenuGuide false sh).

(** The timer of line 498. *)
Definition guide_timer (sh : Shell) : Shell :=
  with_guideTimer false (with_showMenuGuide true sh).

(** [copyToClipboard] (lines 515-525) up to the [await]. *)
Definition copyToClipboard (text label : string) (sh : Shell) : Shell :=
  with_clipboardWrites (clipboardWrites sh ++ [(text, label)]) sh.

(** [copyToClipboard] after the [await]: the write of [text] succeeded
    ([ok]) or was rejected. *)
Definition copyToClipboard_resumes (ok : bool) (text label : string) (sh : Shell)
  : Shell :=
  if ok then
    let sh := with_clipboard (Some text) sh in
    let sh := on_app (on_page (setCopiedField (Some label))) sh in
    with_copyTimer true sh
  else sh.

(** The timer of line 521. *)
Definition copy_timer (sh : Shell) : Shell :=
  with_copyTimer false (on_app (on_page (setCopiedField None)) sh).

(** [handleInboxClick] (lines 586-596) up to [setTimeout]. *)
Definition handleInboxClick (render : Shell) (sh : Shell) : Shell :=
  match inboxStatus render with
  | opening => sh
  | inbox_idle =>
      let sh := with_inboxStatus opening sh in
      let emailName := before_at (email (userInfo (page (shell_app render)))) in
      with_inboxTimers (inboxTimers sh ++ [emailName]) sh
  end.

(** The function handed to [setTimeout] at line 592. *)
Definition inbox_timer (emailName : string) (sh : Shell) : Shell :=
  with_inboxStatus inbox_idle (with_opened (opened sh ++ [inbox_url emailName]) sh).

(** [handleKeyDown] (lines 711-729). *)
Definition handleKeyDown (e : KeyEvent) (render : Shell) (sh : Shell) : Shell :=
  let sh :=
    if String.eqb (key e) "Escape" then
      if showCountrySheet (page (shell_app render)) then
        on_app (on_page (setShowCountrySheet false)) sh
      else if showDomainSheet (page (shell_app render)) then
        on_app (on_page (setShowDomainSheet false)) sh
      else if showMenu render then with_showMenu false sh
      else if isImmersive render then with_isImmersive false sh
      else sh
    else sh in
  let sh :=
    if (ctrlKey e || metaKey e) && String.eqb (key e) "g"
    then on_app (generate (page (shell_app render))) sh
    else sh in
  if (ctrlKey e || metaKey e) && String.eqb (key e) "s"
  then on_app (handleSaveIdentity (page (shell_app render))) sh
  else sh.

(** ** Events of the shell *)

Inductive ShellEvent : Type :=
| OnPage (ev : Event)                 (* an event of the sections above *)
| KeyDown (e : KeyEvent)
| ClickTitle                          (* line 753 *)
| ClickBackdrop                       (* line 745 *)
| OpenMenu                            (* line 775 *)
| CloseMenu                           (* line 1006 *)
| OpenCountrySheet                    (* line 918 *)
| OpenDomainSheet                     (* line 935 *)
| CloseCountrySheet                   (* line 975 *)
| CloseDomainSheet                    (* lines 987, 991 *)
| ClickRow (f : Row)                  (* lines 797-801, 806 *)
| ClipboardSettles (ok : bool)        (* the oldest pending write *)
| CopyTimerFires
| ClickInbox                          (* line 837 *)
| InboxTimerFires                     (* the oldest timer of line 592 *)
| GuideTimerFires
| DismissGuide.                       (* line 44 *)

Definition shell_handle (ev : ShellEvent) (sh : Shell) : Shell :=
  match ev with
  | OnPage ev => on_app (handle ev) sh
  | KeyDown e => handleKeyDown e sh sh
  | ClickTitle => toggleImmersive sh
  | ClickBackdrop => handleExitImmersive sh
  | OpenMenu => handleOpenMenu sh
  | CloseMenu => handleCloseMenu sh
  | OpenCountrySheet => handleOpenCountrySheet sh
  | OpenDomainSheet => handleOpenDomainSheet sh
  | CloseCountrySheet => handleCloseCountrySheet sh
  | CloseDomainSheet => handleCloseDomainSheet sh
  | ClickRow f =>
      copyToClipboard (row_text f (userInfo (page (shell_app sh)))) (row_label f) sh
  | ClipboardSettles ok =>
      match clipboardWrites sh with
      | (text, label) :: rest =>
          copyToClipboard_resumes ok text label (with_clipboardWrites rest sh)
      | [] => sh
      end
  | CopyTimerFires => if copyTimer sh then copy_timer sh else sh
  | ClickInbox => handleInboxClick sh sh
  | InboxTimerFires =>
      match inboxTimers sh with
      | emailName :: rest => inbox_timer emailName (with_inboxTimers rest sh)
      | [] => sh
      end
  | GuideTimerFires => if guideTimer sh then guide_timer sh else sh
  | DismissGuide => handleDismissGuide sh
  end.

(** An event, then the render and the effects it causes. *)
Definition shell_step (sh : Shell) (ev : ShellEvent) : Shell :=
  let sh' := shell_handle ev sh in
  with_shell_app (rerender (page (shell_app sh)) (shell_app sh')) sh'.

Definition shell_steps (sh : Shell) (evs : list ShellEvent) : Shell :=
  fold_left shell_step evs sh.

(** ** The two buttons
    The card with the buttons is rendered once the page is initialised
    (line 787).  The generate button is [disabled={isGenerating}]
    (line 864), the save button [disabled={isSaved || !userInfo.email}]
    (line 880); a disabled button delivers no click.  The style sheet
    (the buttons take no pointer events in immersive mode) is not
    modelled. *)
Definition generate_button_enabled (p : Page) : bool :=
  isInitialized p && negb (isGenerating p).

Definition save_button_enabled (p : Page) : bool :=
  isInitialized p && negb (isSaved p || negb (truthy (email (userInfo p)))).

Definition click_generate (render : Shell) (sh : Shell) : Shell :=
  if generate_button_enabled (page (shell_app render))
  then on_app (generate (page (shell_app render))) sh
  else sh.

Definition click_save (render : Shell) (sh : Shell) : Shell :=
  if save_button_enabled (page (shell_app render))
  then on_app (handleSaveIdentity (page (shell_app render))) sh
  else sh.

(** A click handled by [click], then the render and the effects it
    causes, as in [shell_step]. *)
Definition after_click (click : Shell -> Shell -> Shell) (sh : Shell) : Shell :=
  let sh' := click sh sh in
  with_shell_app (rerender (page (shell_app sh)) (shell_app sh')) sh'.

(** The first render with the effect of lines 495-503 run: the guide timer
    is set unless the guide was seen. *)
Definition shell_mount (w : World) (st : gmap string SavedIdentity)
    (ls : gmap string string) (clip : option string) : Shell :=
  {| shell_app := mount w st;
     isImmersive := false;
     inboxStatus := inbox_idle;
     showMenu := false;
     showMenuGuide := false;
     localStorage := ls;
     guideTimer := negb (hasSeenGuide ls);
     copyTimer := false;
     clipboardWrites := [];
     clipboard := clip;
     inboxTimers := [];
     opened := [] |}.

(** The four layers Escape closes, topmost first. *)
Definition layers (sh : Shell) : list bool :=
  [showCountrySheet (page (shell_app sh)); showDomainSheet (page (shell_app sh));
   showMenu sh; isImmersive sh].

Definition open_layers (sh : Shell) : nat :=
  length (List.filter (fun b => b) (layers sh)).

(** What every run of the shell keeps. *)
Definition shell_kept (sh : Shell) : Prop :=
  (copiedField (page (shell_app sh)) <> None -> copyTimer sh = true)
  /\ (inboxStatus sh = opening <-> inboxTimers sh <> [])
  /\ (length (inboxTimers sh) <= 1)%nat
  /\ Forall (fun n => free_of_at n = true) (inboxTimers sh)
  /\ Forall (fun url => exists n, url = inbox_url n /\ free_of_at n = true) (opened sh).

Definition is_ClickInbox (ev : ShellEvent) : bool :=
  match ev with ClickInbox => true | _ => false end.

End Shell.

(** The first open layer of a list closed, the others as they were. *)
Fixpoint close_first (l : list bool) : list bool :=
  match l with
  | [] => []
  | true :: rest => false :: rest
  | false :: rest => false :: close_first rest
  end.

(** ** CountryFlag (lines 57-98)

    [loadFlagIcon] comes from [@/lib/flagCache]; what it delivers, and
    when, is an event.  [Comp] is the type of a flag component. *)

Section CountryFlag.

Variable Comp : Type.

(** A promise of [loadFlagIcon] that has not settled, with the country
    code it was started for and the [isMounted] of the effect run that
    started it (line 63), which the cleanup of line 81 clears. *)
Record FlagLoad : Type := mkFlagLoad {
  load_countryCode : string;
  load_isMounted : bool
}.

Record CountryFlagState : Type := mkCountryFlagState {
  flag_countryCode : string;            (* the prop [countryCode] *)
  FlagComponent : option Comp;          (* line 59 *)
  isLoading : bool;                     (* line 60 *)
  loads : list FlagLoad;                (* oldest first *)
  delivered_for : option string         (* observer: the code whose load set FlagComponent *)
}.

Inductive FlagEvent : Type :=
| CodeChanges (countryCode : string)              (* a render with another prop *)
| LoadSettles (i : nat) (outcome : exn + option Comp)  (* the i-th pending promise *)
| Unmounts.

Definition cleanup (ls : list FlagLoad) : list FlagLoad :=
  (fun l => {| load_countryCode := load_countryCode l; load_isMounted := false |}) <$> ls.

(** The first render and the first run of the effect of lines 62-83. *)
Definition CountryFlag_mount (countryCode : string) : CountryFlagState :=
  {| flag_countryCode := countryCode;
     FlagComponent := None;
     isLoading := true;
     loads := [{| load_countryCode := countryCode; load_isMounted := true |}];
     delivered_for := None |}.

Definition CountryFlag_step (s : CountryFlagState) (ev : FlagEvent) : CountryFlagState :=
  match ev with
  | CodeChanges c =>
      if bool_decide (c = flag_countryCode s) then s
      else
        {| flag_countryCode := c;
           FlagComponent := FlagComponent s;
           isLoading := true;
           loads := cleanup (loads s)
                    ++ [{| load_countryCode := c; load_isMounted := true |}];
           delivered_for := delivered_for s |}
  | LoadSettles i outcome =>
      match loads s !! i with
      | None => s
      | Some l =>
          if load_isMounted l then
            match outcome with
            | inr (Some component) =>           (* lines 68-71 *)
                {| flag_countryCode := flag_countryCode s;
                   FlagComponent := Some component;
                   isLoading := false;
                   loads := delete i (loads s);
                   delivered_for := Some (load_countryCode l) |}
            | _ =>                              (* lines 69 (null) and 74-77 *)
                {| flag_countryCode := flag_countryCode s;
                   FlagComponent := None;
                   isLoading := false;
                   loads := delete i (loads s);
                   delivered_for := None |}
            end
          else
            {| flag_countryCode := flag_countryCode s;
               FlagComponent := FlagComponent s;
               isLoading := isLoading s;
               loads := delete i (loads s);
               delivered_for := delivered_for s |}
      end
  | Unmounts =>
      {| flag_countryCode := flag_countryCode s;
         FlagComponent := FlagComponent s;
         isLoading := isLoading s;
         loads := cleanup (loads s);
         delivered_for := delivered_for s |}
  end.

Definition CountryFlag_steps (s : CountryFlagState) (evs : list FlagEvent)
  : CountryFlagState :=
  fold_left CountryFlag_step evs s.

(** Line 85: the flag is rendered, not the placeholder. *)
Definition shows_flag (s : CountryFlagState) : bool :=
  negb (isLoading s || negb (bool_decide (is_Some (FlagComponent s)))).

(** What every run of the component keeps. *)
Definition CountryFlag_kept (s : CountryFlagState) : Prop :=
  Forall (fun l => load_isMounted l = true -> load_countryCode l = flag_countryCode s)
    (loads s)
  /\ (length (List.filter load_isMounted (loads s)) <= 1)%nat
  /\ (isLoading s = false -> List.filter load_isMounted (loads s) = [])
  /\ (isLoading s = false -> FlagComponent s <> None ->
      delivered_for s = Some (flag_countryCode s)).

End CountryFlag.

Arguments flag_countryCode {Comp} _.
Arguments FlagComponent {Comp} _.
Arguments isLoading {Comp} _.
Arguments loads {Comp} _.
Arguments delivered_for {Comp} _.
Arguments CodeChanges {Comp} _.
Arguments LoadSettles {Comp} _ _.
Arguments Unmounts {Comp}.
Arguments CountryFlag_mount {Comp} _.
Arguments CountryFlag_step {Comp} _ _.
Arguments CountryFlag_steps {Comp} _ _.
Arguments shows_flag {Comp} _.
Arguments CountryFlag_kept {Comp} _.

Section RequestObservations.

Context `{Imports}.

Definition is_IdleCallbackRuns (ev : Event) : bool :=
  match ev with IdleCallbackRuns => true | _ => false end.

End RequestObservations.

(** The shell run on the sample library up to the first identity. *)
Module SampleShell.

Definition visited : @Shell Sample.lib :=
  @shell_steps Sample.lib (@shell_mount Sample.lib 0%nat ∅ ∅ None)
    [@OnPage Sample.lib (@IpAnswer Sample.lib (inr Sample.answer))].

Definition escape : KeyEvent :=
  {| key := "Escape"; ctrlKey := false; metaKey := false |}.

Definition ctrl_g : KeyEvent :=
  {| key := "g"; ctrlKey := true; metaKey := false |}.

(** The shell of the page whose initial generation failed. *)
Definition stranded_shell : @Shell Sample.lib :=
  @shell_steps Sample.lib (@shell_mount Sample.lib 0%nat ∅ ∅ None)
    [@OnPage Sample.lib (@IpAnswer Sample.lib (inr Sample.antarctic_answer))].

End SampleShell.

(** * Properties *)

(** ** Strings and the domain list *)

Lemma startsWith_spec (s t : string) :
  startsWith s t = true <-> exists post, s = t +:+ post.
Proof.
  revert s; induction t as [|c t IH]; intros s; simpl.
  - split; [intros _; exists s; reflexivity | reflexivity].
  - destruct s as [|d s].
    + split; [discriminate | intros [post Hp]; discriminate].
    + destruct (Ascii.eqb_spec c d) as [->|Hne].
      * rewrite IH. split; intros [post Hp]; exists post.
        -- now rewrite Hp.
        -- now injection Hp.
      * split; [discriminate | intros [post Hp]; injection Hp; congruence].
Qed.

Lemma includes_spec (s t : string) :
  includes s t = true <-> exists pre post, s = pre +:+ t +:+ post.
Proof.
  induction s as [|c s IH]; simpl.
  - rewrite orb_false_r, startsWith_spec. split.
    + intros [post Hp]; exists "", post; exact Hp.
    + intros [pre [post Hp]]. destruct pre; [exists post; exact Hp | discriminate].
  - rewrite orb_true_iff, startsWith_spec, IH. split.
    + intros [[post Hp] | [pre [post Hp]]].
      * exists "", post; exact Hp.
      * exists (String c pre), post; simpl; now rewrite Hp.
    + intros [pre [post Hp]]. destruct pre as [|c' pre]; simpl in Hp.
      * left; exists post; exact Hp.
      * right; exists pre, post; now injection Hp.
Qed.

Lemma includes_empty (s : string) : includes s "" = true.
Proof. destruct s; reflexivity. Qed.

Lemma truthy_false (s : string) : truthy s = false <-> s = "".
Proof. destruct s; simpl; split; congruence. Qed.

Lemma truthy_true (s : string) : truthy s = true <-> s <> "".
Proof. destruct s; simpl; split; congruence. Qed.

Lemma filter_kept_where (P : string -> Prop) (f : string -> bool) :
  (forall d, f d = true <-> P d) ->
  forall l, kept_where P l (List.filter f l).
Proof.
  intros Hf l; induction l as [|d l IH]; simpl.
  - constructor.
  - destruct (f d) eqn:E.
    + apply kept_keep; [now apply Hf | exact IH].
    + apply kept_drop; [rewrite <- Hf; congruence | exact IH].
Qed.

Lemma kept_where_unique (P : string -> Prop) (l k1 k2 : list string) :
  kept_where P l k1 -> kept_where P l k2 -> k1 = k2.
Proof.
  intros H1; revert k2; induction H1; intros k2 H2; inversion H2; subst;
    try reflexivity; try contradiction; auto using f_equal.
Qed.

Lemma kept_where_sublist (P : string -> Prop) (l k : list string) :
  kept_where P l k -> k `sublist_of` l.
Proof. induction 1; [constructor | now constructor | now constructor]. Qed.

Lemma slice0_prefix {A : Type} (l : list A) (e : Z) : slice0 l e `prefix_of` l.
Proof. unfold slice0. apply prefix_take. Qed.

Lemma slice0_length {A : Type} (l : list A) (e : Z) :
  0 <= e -> length (slice0 l e) = Z.to_nat (Z.min e (Z.of_nat (length l))).
Proof.
  intros He. unfold slice0. destruct (Z.ltb_spec e 0); [lia|].
  rewrite length_take. lia.
Qed.

Section DomainListFacts.

Variable toLowerCase : string -> string.

Lemma filter_test_contains_ci (q d : string) :
  includes (toLowerCase d) (toLowerCase q) = true <-> contains_ci toLowerCase q d.
Proof. apply includes_spec. Qed.

(** C8.  For every registry [allDomains] and every state of the list,
    the filtered domains are the whole registry when the query is empty,
    and otherwise exactly the members that contain the query
    case-insensitively, in registry order (and no other list is that
    subsequence); the visible domains are always a prefix of the filtered
    ones. *)
Theorem C8_listing_preserves_registry_order
    (allDomains : list string) (s : DomainListState) :
  let filtered := filteredDomains toLowerCase allDomains (filteredQuery s) in
  (if truthy (filteredQuery s)
   then kept_where (contains_ci toLowerCase (filteredQuery s)) allDomains filtered
        /\ (forall k, kept_where (contains_ci toLowerCase (filteredQuery s)) allDomains k ->
                      k = filtered)
   else filtered = allDomains)
  /\ filtered `sublist_of` allDomains
  /\ visibleDomains toLowerCase allDomains s `prefix_of` filtered.
Proof.
  intros filtered. subst filtered. unfold visibleDomains, filteredDomains.
  destruct (truthy (filteredQuery s)) eqn:E; simpl.
  - pose proof (filter_kept_where (contains_ci toLowerCase (filteredQuery s))
                  (fun d => includes (toLowerCase d) (toLowerCase (filteredQuery s)))
                  (filter_test_contains_ci (filteredQuery s)) allDomains) as K.
    repeat split.
    + exact K.
    + intros k Hk. exact (kept_where_unique _ _ _ _ Hk K).
    + exact (kept_where_sublist _ _ _ K).
    + apply slice0_prefix.
  - repeat split; [reflexivity | apply slice0_prefix].
Qed.

End DomainListFacts.

(** ** The composition of an identity *)

Section CompositionFacts.

Context `{Imports}.

(** Runs the generator calls of the goal one after the other. *)
Ltac run_generators :=
  repeat match goal with
    | |- context [generateName ?c ?w] =>
        destruct (generateName c w) as [? [?|[? ?]]] eqn:?; simpl
    | |- context [generateBirthday ?w] =>
        destruct (generateBirthday w) as [? [?|?]] eqn:?; simpl
    | |- context [generatePhone ?c ?w] =>
        destruct (generatePhone c w) as [? [?|?]] eqn:?; simpl
    | |- context [generatePassword ?w] =>
        destruct (generatePassword w) as [? [?|?]] eqn:?; simpl
    | |- context [generateEmail ?f ?l ?d ?w] =>
        destruct (generateEmail f l d w) as [? [?|?]] eqn:?; simpl
    end.

Ltac open_composition :=
  unfold compose_identity, bind, invoke, ret; simpl.

Lemma made_app (r r' : Run) (new : list Call) :
  calls r' = calls r ++ new -> made r r' = new.
Proof. unfold made. intros ->. apply drop_app_length. Qed.

(** The composition only ever appends to the call log. *)
Lemma compose_identity_appends (c : CountryConfig Locale) (d : string) (r : Run) :
  calls (compose_identity c d r).1 = calls r ++ made r (compose_identity c d r).1.
Proof.
  unfold made. open_composition. run_generators;
    rewrite <- ?app_assoc; now rewrite drop_app_length.
Qed.

Lemma compose_identity_returns (c : CountryConfig Locale) (d : string)
    (r r' : Run) (u : UserInfo) :
  compose_identity c d r = (r', inr u) ->
  all_return c d (world r) u
  /\ made r r' = planned c d (firstName u) (lastName u).
Proof.
  open_composition. run_generators; intros E; try discriminate.
  injection E as <- <-. split.
  - unfold all_return; simpl. eauto 10.
  - apply made_app; simpl. now rewrite <- !app_assoc.
Qed.

Lemma all_return_composes (c : CountryConfig Locale) (d : string)
    (r : Run) (u : UserInfo) :
  all_return c d (world r) u -> (compose_identity c d r).2 = inr u.
Proof.
  intros (w1 & w2 & w3 & w4 & w5 & E1 & E2 & E3 & E4 & E5).
  open_composition. rewrite E1; simpl. rewrite E2; simpl. rewrite E3; simpl.
  rewrite E4; simpl. rewrite E5; simpl. now destruct u.
Qed.

Lemma compose_identity_throws (c : CountryConfig Locale) (d : string)
    (r r' : Run) (e : exn) :
  compose_identity c d r = (r', inl e) -> throws_during c d (world r) e.
Proof.
  open_composition. run_generators; intros E; try discriminate;
    injection E as <- <-; eauto using throws_during.
Qed.

Lemma throws_during_composes (c : CountryConfig Locale) (d : string)
    (r : Run) (e : exn) :
  throws_during c d (world r) e -> (compose_identity c d r).2 = inl e.
Proof.
  open_composition.
  intros [w1 E1 | w1 n w2 E1 E2 | w1 n w2 b w3 E1 E2 E3
         | w1 n w2 b w3 ph w4 E1 E2 E3 E4
         | w1 n w2 b w3 ph w4 pw w5 E1 E2 E3 E4 E5];
    try destruct n as [f l];
    rewrite E1; simpl; try reflexivity;
    rewrite E2; simpl; try reflexivity;
    rewrite E3; simpl; try reflexivity;
    rewrite E4; simpl; try reflexivity;
    simpl in E5; rewrite E5; reflexivity.
Qed.

(** What a composition that throws has invoked: the Name Generator alone
    if it is the one that threw, otherwise the first [n] planned calls. *)
Lemma compose_identity_aborts (c : CountryConfig Locale) (d : string)
    (r r' : Run) (e : exn) :
  compose_identity c d r = (r', inl e) ->
  match (generateName (code c) (world r)).2 with
  | inl _ => made r r' = [CallName (code c)]
  | inr (f, l) =>
      exists n : nat, (2 <= n <= 5)%nat /\ made r r' = take n (planned c d f l)
  end.
Proof.
  open_composition. run_generators; intros E; try discriminate;
    injection E as <- <-.
  - now apply made_app.
  - exists 2%nat; split; [lia | apply made_app; simpl; now rewrite <- !app_assoc].
  - exists 3%nat; split; [lia | apply made_app; simpl; now rewrite <- !app_assoc].
  - exists 4%nat; split; [lia | apply made_app; simpl; now rewrite <- !app_assoc].
  - exists 5%nat; split; [lia | apply made_app; simpl; now rewrite <- !app_assoc].
Qed.

Lemma invocations_by_generator (g : Generator) (cs : list Call) :
  invocations g cs
  = length (List.filter (fun x => bool_decide (x = g)) (generator_of <$> cs)).
Proof.
  unfold invocations. induction cs as [|c cs IH]; [reflexivity|].
  rewrite fmap_cons. simpl. destruct (bool_decide (generator_of c = g)); simpl;
    now rewrite IH.
Qed.

Ltac read_calls :=
  match goal with
  | |- context [made ?r ?r'] =>
      let M := fresh "M" in
      eassert (M : made r r' = _)
        by (apply made_app; simpl; rewrite <- ?app_assoc; reflexivity);
      rewrite M; clear M
  end.

(** A composition that throws has invoked the generators up to the one
    that threw, in order, and none after it. *)
Lemma compose_identity_stops (c : CountryConfig Locale) (d : string)
    (r r' : Run) (e : exn) :
  compose_identity c d r = (r', inl e) ->
  exists g : Generator,
    throws_at c d (world r) g e
    /\ generator_of <$> made r r' = take (position g) invocation_order
    /\ forall f l, g = Name \/ (generateName (code c) (world r)).2 = inr (f, l) ->
                   made r r' = take (position g) (planned c d f l).
Proof.
  open_composition. run_generators; intros E; try discriminate;
    injection E as <- <-.
  - exists Name. split; [eauto using throws_at|]. read_calls.
    split; [reflexivity|]. intros f l _. reflexivity.
  - exists Birthday. split; [eauto using throws_at|]. read_calls.
    split; [reflexivity|]. intros f l [N|N]; [discriminate|].
    injection N as <- <-. reflexivity.
  - exists Phone. split; [eauto using throws_at|]. read_calls.
    split; [reflexivity|]. intros f l [N|N]; [discriminate|].
    injection N as <- <-. reflexivity.
  - exists Password. split; [eauto using throws_at|]. read_calls.
    split; [reflexivity|]. intros f l [N|N]; [discriminate|].
    injection N as <- <-. reflexivity.
  - exists Email. split; [eauto using throws_at|]. read_calls.
    split; [reflexivity|]. intros f l [N|N]; [discriminate|].
    injection N as <- <-. reflexivity.
Qed.

(** The generator that throws decides the outcome. *)
Lemma throws_at_composes (c : CountryConfig Locale) (d : string)
    (r : Run) (g : Generator) (e : exn) :
  throws_at c d (world r) g e ->
  exists r', compose_identity c d r = (r', inl e).
Proof.
  open_composition.
  intros [w1 e' E1 | w1 n w2 e' E1 E2 | w1 n w2 b w3 e' E1 E2 E3
         | w1 n w2 b w3 ph w4 e' E1 E2 E3 E4
         | w1 n w2 b w3 ph w4 pw w5 e' E1 E2 E3 E4 E5];
    try destruct n as [f l];
    rewrite E1; simpl; eauto;
    rewrite E2; simpl; eauto;
    rewrite E3; simpl; eauto;
    rewrite E4; simpl; eauto;
    simpl in E5; rewrite E5; simpl; eauto.
Qed.

(** Two generators cannot both be the one that throws. *)
Lemma throws_at_unique (c : CountryConfig Locale) (d : string) (w : World)
    (g g' : Generator) (e e' : exn) :
  throws_at c d w g e -> throws_at c d w g' e' -> g = g' /\ e = e'.
Proof.
  intros T T'. destruct T; destruct T'; split; congruence.
Qed.

Ltac among :=
  repeat match goal with
    | Hin : _ ∈ _ :: _ |- _ => apply elem_of_cons in Hin as [Hin|Hin]
    | Hin : _ ∈ [] |- _ => now apply not_elem_of_nil in Hin
    end.

(** What the generators receive. *)
Lemma compose_identity_arguments (c : CountryConfig Locale) (d : string) (r : Run) :
  let new := made r (compose_identity c d r).1 in
  (forall k, CallName k ∈ new -> k = code c)
  /\ (forall k, CallPhone k ∈ new -> k = c)
  /\ (forall f l x, CallEmail f l x ∈ new ->
        x = customDomain d /\ (generateName (code c) (world r)).2 = inr (f, l)).
Proof.
  intros new. subst new. open_composition. run_generators; read_calls;
    (split; [|split]); intros; simpl in *; among; try split; congruence.
Qed.

End CompositionFacts.

(** ** Generation requests *)

Section GenerationFacts.

Context `{Imports}.

Lemma invocations_planned (c : CountryConfig Locale) (d f l : string) (g : Generator) :
  invocations g (planned c d f l) = 1%nat.
Proof. destruct g; reflexivity. Qed.

Lemma invocations_take_planned (c : CountryConfig Locale) (d f l : string)
    (g : Generator) (n : nat) :
  (invocations g (take n (planned c d f l)) <= 1)%nat.
Proof.
  do 6 (destruct n as [|n]; [destruct g; vm_compute; lia|]).
  destruct g; vm_compute; lia.
Qed.

(** The idle callback shows what the generators returned. *)
Lemma idle_callback_shows (cb : IdleCallback) (a : App) (u : UserInfo) :
  all_return (idle_selectedCountry cb) (idle_selectedDomain cb) (world (run a)) u ->
  userInfo (page (idle_callback cb a)) = u.
Proof.
  intros R. apply all_return_composes in R. unfold idle_callback; simpl.
  destruct (compose_identity _ _ (run a)) as [r' [e|u']]; simpl in *; congruence.
Qed.

(** C1, as amended.  In every composition the generators are invoked in
    the order name, birthday, phone, password, email, each at most once,
    and a generator is invoked only after the ones before it returned:
    when a generator throws, the calls made are exactly those up to and
    including the one that threw, every earlier one having returned, and
    no later one is invoked.  When none throws, each is invoked exactly
    once and the email is composed last.  The first four receive the
    selected country (its code, or the object) and nothing a generator
    returned; the Email Composer receives the first and last name the Name
    Generator returned. *)
Theorem C1_generators_in_order_until_throw
    (c : CountryConfig Locale) (d : string) (r : Run) :
  let out := compose_identity c d r in
  let new := made r out.1 in
  calls out.1 = calls r ++ new
  /\ (forall g, (invocations g new <= 1)%nat)
  /\ match out.2 with
     | inr u =>
         new = planned c d (firstName u) (lastName u)
         /\ (generateName (code c) (world r)).2 = inr (firstName u, lastName u)
         /\ (forall g, invocations g new = 1%nat)
     | inl e =>
         exists thrower : Generator,
           throws_at c d (world r) thrower e
           /\ generator_of <$> new = take (position thrower) invocation_order
           /\ (forall f l,
                 thrower = Name \/ (generateName (code c) (world r)).2 = inr (f, l) ->
                 new = take (position thrower) (planned c d f l))
           /\ (forall g, invocations g new
                         = if (position g <=? position thrower)%nat
                           then 1%nat else 0%nat)
     end
  /\ (forall g e, throws_at c d (world r) g e ->
        out.2 = inl e
        /\ generator_of <$> new = take (position g) invocation_order)
  /\ (forall k, CallName k ∈ new -> k = code c)
  /\ (forall k, CallPhone k ∈ new -> k = c)
  /\ (forall f l x, CallEmail f l x ∈ new ->
        x = customDomain d /\ (generateName (code c) (world r)).2 = inr (f, l)).
Proof.
  intros out new. subst out new.
  split; [apply compose_identity_appends|].
  assert (P : forall (g thrower : Generator) (cs : list Call),
            generator_of <$> cs = take (position thrower) invocation_order ->
            invocations g cs
            = if (position g <=? position thrower)%nat then 1%nat else 0%nat).
  { intros g thrower cs E. rewrite invocations_by_generator, E.
    destruct g, thrower; reflexivity. }
  split; [|split; [|split; [|apply compose_identity_arguments]]].
  - intros g.
    destruct (compose_identity c d r) as [r' [e|u]] eqn:E; simpl.
    + destruct (compose_identity_stops _ _ _ _ _ E) as (thrower & _ & G & _).
      rewrite (P g thrower _ G). destruct (_ <=? _)%nat; lia.
    + apply compose_identity_returns in E as [_ ->].
      now rewrite invocations_planned.
  - destruct (compose_identity c d r) as [r' [e|u]] eqn:E; simpl.
    + destruct (compose_identity_stops _ _ _ _ _ E) as (thrower & T & G & A).
      exists thrower. repeat split; auto.
    + destruct (compose_identity_returns _ _ _ _ _ E) as [R M].
      rewrite M. split; [reflexivity|]. split; [|intros g; apply invocations_planned].
      destruct R as (w1 & w2 & w3 & w4 & w5 & E1 & _). now rewrite E1.
  - intros g e T. destruct (throws_at_composes _ _ _ _ _ T) as [r' E].
    rewrite E; simpl. split; [reflexivity|].
    destruct (compose_identity_stops _ _ _ _ _ E) as (thrower & T' & G & _).
    destruct (throws_at_unique _ _ _ _ _ _ _ T T') as [-> _]. exact G.
Qed.

(** C3.  Whenever the Email Composer is invoked, its domain argument is
    absent if the selected domain is ["random"] and is the selected domain
    itself otherwise; it is invoked with that argument in every
    composition in which the four generators before it return; and the
    domain a request composes with is the page's [selectedDomain]. *)
Theorem C3_sentinel_means_no_explicit_domain
    (c : CountryConfig Locale) (d : string) (r : Run) (render : Page) (a : App) :
  let new := made r (compose_identity c d r).1 in
  let passed := if bool_decide (d = "random") then None else Some d in
  (forall f l x, CallEmail f l x ∈ new -> x = passed)
  /\ (forall w1 f l w2 b w3 ph w4 pw,
        generateName (code c) (world r) = (w1, inr (f, l)) ->
        generateBirthday w1 = (w2, inr b) ->
        generatePhone c w2 = (w3, inr ph) ->
        generatePassword w3 = (w4, inr pw) ->
        last new = Some (CallEmail f l passed))
  /\ idle_selectedDomain <$> idleCallbacks (generate render a)
     = (idle_selectedDomain <$> idleCallbacks a) ++ [selectedDomain render].
Proof.
  intros new passed.
  assert (P : customDomain d = passed).
  { unfold customDomain, passed. destruct (String.eqb_spec d "random").
    - now rewrite bool_decide_eq_true_2.
    - now rewrite bool_decide_eq_false_2. }
  split; [|split].
  - intros f l x Hin. subst new.
    destruct (compose_identity c d r) as [r' [e|u]] eqn:E; simpl in Hin.
    + pose proof (compose_identity_aborts _ _ _ _ _ E) as A.
      destruct (generateName (code c) (world r)) as [w1 [e1|[f1 l1]]]; simpl in A.
      * rewrite A in Hin. apply list_elem_of_singleton in Hin. discriminate.
      * destruct A as [n [_ A]]. rewrite A in Hin.
        apply elem_of_take in Hin as (i & Hi & _).
        unfold planned in Hi.
        do 5 (destruct i as [|i]; [simpl in Hi; congruence|]). discriminate.
    + apply compose_identity_returns in E as [_ M]. rewrite M in Hin.
      unfold planned in Hin. rewrite !elem_of_cons in Hin.
      destruct Hin as [?|[?|[?|[?|[?|Hin]]]]]; try congruence.
      now apply not_elem_of_nil in Hin.
  - intros w1 f l w2 b w3 ph w4 pw E1 E2 E3 E4. subst new.
    rewrite <- P. unfold made, compose_identity, bind, invoke, ret; simpl.
    rewrite E1; simpl. rewrite E2; simpl. rewrite E3; simpl. rewrite E4; simpl.
    destruct (generateEmail f l (customDomain d) w4) as [w5 [e|m]]; simpl;
      rewrite <- !app_assoc, drop_app_length; reflexivity.
  - unfold generate; simpl. now rewrite fmap_app.
Qed.

(** C4.  When every generator returns, the idle callback of [generate]
    replaces the record by one whose six fields are what the generators
    returned in this call, and the same record results whatever record
    was displayed before. *)
Theorem C4_success_replaces_every_field
    (cb : IdleCallback) (a : App) (u : UserInfo)
    (Hreturn : all_return (idle_selectedCountry cb) (idle_selectedDomain cb)
                 (world (run a)) u) :
  userInfo (page (idle_callback cb a)) = u
  /\ forall previous : UserInfo,
       userInfo (page (idle_callback cb (on_page (setUserInfo previous) a))) = u.
Proof.
  split; [|intros previous]; now apply idle_callback_shows.
Qed.


End GenerationFacts.

(** ** Renders, effects and events *)

Section PageFacts.

Context `{Imports}.

Ltac open_commit :=
  unfold rerender, commit, effect_isSaved, effect_initial, effect_country,
    generate, on_page; simpl.

Ltac split_effects :=
  repeat first
    [ case_bool_decide
    | match goal with
      | |- context [compose_identity ?c ?d ?r] =>
          destruct (compose_identity c d r) as [? [?|?]]
      | |- context [if ?b then _ else _] => destruct b eqn:?
      end ]; simpl.

(** No effect writes the selection cells or [isInitialized]. *)
Lemma commit_selection (prev : Page) (a : App) :
  selectedCountry (page (commit prev a)) = selectedCountry (page a)
  /\ selectedDomain (page (commit prev a)) = selectedDomain (page a)
  /\ isInitialized (page (commit prev a)) = isInitialized (page a).
Proof. open_commit. split_effects; auto. Qed.

(** Without a change of country code no effect starts a request. *)
Lemma commit_same_country (prev : Page) (a : App) :
  deps_country (page a) = deps_country prev ->
  isGenerating (page (commit prev a)) = isGenerating (page a)
  /\ idleCallbacks (commit prev a) = idleCallbacks a.
Proof. intros E. open_commit. split_effects; auto; contradiction. Qed.

Lemma commit_initializing (prev : Page) (a : App) :
  initializing (commit prev a) = initializing a.
Proof. open_commit. split_effects; auto. Qed.

Lemma rerender_initializing (prev : Page) (a : App) :
  initializing (rerender prev a) = initializing a.
Proof. unfold rerender. now rewrite !commit_initializing. Qed.

Lemma rerender_selection (prev : Page) (a : App) :
  selectedCountry (page (rerender prev a)) = selectedCountry (page a)
  /\ selectedDomain (page (rerender prev a)) = selectedDomain (page a)
  /\ isInitialized (page (rerender prev a)) = isInitialized (page a).
Proof.
  unfold rerender.
  destruct (commit_selection (page a) (commit prev a)) as (-> & -> & ->).
  apply commit_selection.
Qed.

Lemma rerender_same_country (prev : Page) (a : App) :
  deps_country (page a) = deps_country prev ->
  isGenerating (page (rerender prev a)) = isGenerating (page a)
  /\ idleCallbacks (rerender prev a) = idleCallbacks a.
Proof.
  intros E. unfold rerender.
  destruct (commit_same_country (page a) (commit prev a)) as [-> ->].
  - unfold deps_country. now destruct (commit_selection prev a) as (-> & _).
  - now apply commit_same_country.
Qed.

(** Only the initial-generation effect writes the record, and only on a
    blank first name. *)
Lemma commit_writes_record (prev : Page) (a : App) :
  userInfo (page (commit prev a)) <> userInfo (page a) ->
  truthy (firstName (userInfo (page a))) = false
  /\ deps_initial (page a) <> deps_initial prev.
Proof.
  open_commit. split_effects; intros N; try congruence;
    match goal with
    | E : _ && negb _ = true |- _ => apply andb_prop in E as [_ E]
    end;
    (split; [now destruct (truthy _) | assumption]).
Qed.

Lemma rerender_second_commit_keeps_record (prev : Page) (a : App) :
  userInfo (page (rerender prev a)) = userInfo (page (commit prev a)).
Proof.
  unfold rerender.
  destruct (decide (userInfo (page (commit (page a) (commit prev a)))
                    = userInfo (page (commit prev a)))) as [E|N]; [exact E|].
  exfalso.
  apply commit_writes_record in N as [B D].
  destruct (commit_selection prev a) as (Sc & Sd & Si).
  destruct (decide (userInfo (page (commit prev a)) = userInfo (page a))) as [E|N].
  - apply D. unfold deps_initial. now rewrite Sc, Sd, Si, E.
  - apply commit_writes_record in N as [B' _].
    apply D. unfold deps_initial. rewrite Sc, Sd, Si.
    destruct (firstName (userInfo (page (commit prev a)))),
             (firstName (userInfo (page a))); simpl in *; congruence.
Qed.

(** After the two commits of [rerender] a further commit runs nothing. *)
Lemma commit_settled (prev : Page) (a : App) :
  commit (page (commit prev a)) (rerender prev a) = rerender prev a.
Proof.
  pose proof (rerender_second_commit_keeps_record prev a) as U.
  destruct (rerender_selection prev a) as (Sc & Sd & Si).
  destruct (commit_selection prev a) as (Sc' & Sd' & Si').
  unfold commit at 1.
  rewrite !bool_decide_eq_true_2; [reflexivity | ..];
    unfold deps_country, deps_initial, deps_isSaved;
    now rewrite ?U, ?Sc, ?Sd, ?Si, ?Sc', ?Sd', ?Si'.
Qed.

Ltac run_composition :=
  match goal with
  | |- context [compose_identity ?c ?d ?r] =>
      destruct (compose_identity c d r) as [? [?|?]]; simpl
  end.

(** A commit runs nothing when the email and the country code are the
    ones of the previous render and a first name is displayed. *)
Lemma commit_idle (prev : Page) (a : App) :
  deps_isSaved (page a) = deps_isSaved prev ->
  deps_country (page a) = deps_country prev ->
  truthy (firstName (userInfo (page a))) = true ->
  commit prev a = a.
Proof.
  intros E1 E2 T. unfold commit.
  rewrite (bool_decide_eq_true_2 _ E1), (bool_decide_eq_true_2 _ E2).
  case_bool_decide; [reflexivity|].
  unfold effect_initial. rewrite T. now rewrite andb_false_r.
Qed.

Lemma step_generate (a : App) : step a PressGenerate = generate (page a) a.
Proof.
  unfold step, rerender; simpl.
  assert (C : commit (page a) (generate (page a) a) = generate (page a) a).
  { unfold commit. now rewrite !bool_decide_eq_true_2. }
  rewrite C. unfold commit. now rewrite !bool_decide_eq_true_2.
Qed.

Lemma step_idle_callback (a : App) (cb : IdleCallback) (rest : list IdleCallback) :
  idleCallbacks a = cb :: rest ->
  isGenerating (page (step a IdleCallbackRuns)) = false
  /\ idleCallbacks (step a IdleCallbackRuns) = rest.
Proof.
  intros Q. unfold step; simpl. rewrite Q.
  destruct (rerender_same_country (page a)
              (idle_callback cb (with_idleCallbacks rest a))) as [-> ->].
  - unfold idle_callback; simpl. run_composition; reflexivity.
  - split; unfold idle_callback; simpl; try run_composition; reflexivity.
Qed.

(** Running as many idle callbacks as are queued empties the queue and
    leaves the flag reset. *)
Lemma idle_callbacks_drain (n : nat) (a : App) :
  length (idleCallbacks a) = S n ->
  isGenerating (page (steps a (replicate (S n) IdleCallbackRuns))) = false
  /\ idleCallbacks (steps a (replicate (S n) IdleCallbackRuns)) = [].
Proof.
  revert a; induction n as [|n IH]; intros a L;
    destruct (idleCallbacks a) as [|cb rest] eqn:Q; try discriminate;
    destruct (step_idle_callback a cb rest Q) as [G R].
  - destruct rest; [|discriminate]. simpl. auto.
  - change (steps a (replicate (S (S n)) IdleCallbackRuns))
      with (steps (step a IdleCallbackRuns) (replicate (S n) IdleCallbackRuns)).
    apply IH. rewrite R. simpl in L. lia.
Qed.

(** C6, as amended.  A generation request sets the generating flag and
    hands the generator calls to an idle callback; whenever that callback
    runs, whether the generators return or throw, it resets the flag; and
    once the queued callbacks have run, the flag is reset and nothing is
    left pending. *)
Theorem C6_generating_resolves_when_callback_runs (a : App) :
  (forall cb, isGenerating (page (idle_callback cb a)) = false)
  /\ let requested := step a PressGenerate in
     isGenerating (page requested) = true
     /\ length (idleCallbacks requested) = S (length (idleCallbacks a))
     /\ let finished :=
          steps requested
            (replicate (length (idleCallbacks requested)) IdleCallbackRuns) in
        isGenerating (page finished) = false /\ idleCallbacks finished = [].
Proof.
  split.
  - intros cb. unfold idle_callback; simpl.
    try run_composition; reflexivity.
  - intros requested.
    assert (L : length (idleCallbacks requested) = S (length (idleCallbacks a))).
    { subst requested. rewrite step_generate. unfold generate; simpl.
      rewrite length_app; simpl. lia. }
    split; [subst requested; now rewrite step_generate|].
    split; [exact L|]. simpl. rewrite L. now apply idle_callbacks_drain.
Qed.

(** C7.  When the answer of the IP service names a country code for
    which [getCountryConfig] finds no country (it returns nothing, or it
    throws), [initializeApp] leaves the selected country as it was and
    still sets [isInitialized]; started from the first render, the
    selected country stays the default [countries[0]]. *)
Theorem C7_unknown_country_keeps_default
    (data : IpData) (c : string) (w : World) (st : gmap string SavedIdentity)
    (Hcode : data_country data = Some c)
    (Hnone : forall k, getCountryConfig c <> inr (Some k)) :
  (forall p, selectedCountry (initializeApp true (inr data) p) = selectedCountry p
             /\ isInitialized (initializeApp true (inr data) p) = true)
  /\ let a := step (mount w st) (IpAnswer (inr data)) in
     selectedCountry (page a) = countries_0
     /\ isInitialized (page a) = true
     /\ initializing a = false.
Proof.
  assert (P : forall p, selectedCountry (initializeApp true (inr data) p) = selectedCountry p
             /\ isInitialized (initializeApp true (inr data) p) = true).
  { intros p. unfold initializeApp, initializeApp_try, initializeApp_catch,
      initializeApp_finally; simpl. rewrite Hcode.
    destruct (truthy c && data_accurate data); simpl; [|auto].
    destruct (getCountryConfig c) as [e|[k|]] eqn:G; simpl; auto.
    now destruct (Hnone k). }
  split; [exact P|]. intros a. subst a. unfold step.
  destruct (rerender_selection (page (mount w st))
              (handle (IpAnswer (inr data)) (mount w st))) as (-> & _ & ->).
  rewrite rerender_initializing.
  destruct (P initial_page) as [P1 P2]. simpl in P1, P2 |- *. auto.
Qed.

Lemma commit_unchanged (prev : Page) (a : App) :
  deps_isSaved (page a) = deps_isSaved prev ->
  deps_initial (page a) = deps_initial prev ->
  deps_country (page a) = deps_country prev ->
  commit prev a = a.
Proof. intros E1 E2 E3. unfold commit. now rewrite !bool_decide_eq_true_2. Qed.

Lemma rerender_unchanged (prev : Page) (a : App) :
  deps_isSaved (page a) = deps_isSaved prev ->
  deps_initial (page a) = deps_initial prev ->
  deps_country (page a) = deps_country prev ->
  rerender prev a = a.
Proof.
  intros E1 E2 E3. unfold rerender.
  rewrite (commit_unchanged prev a) by assumption.
  now apply commit_unchanged.
Qed.

(** A commit invokes generators only through the initial-generation
    effect, on a blank first name and a change of its dependencies. *)
Lemma commit_run (prev : Page) (a : App) :
  truthy (firstName (userInfo (page a))) = true
    \/ deps_initial (page a) = deps_initial prev ->
  run (commit prev a) = run a.
Proof.
  intros K. open_commit. split_effects; try reflexivity; exfalso;
    destruct K as [K|K]; try contradiction;
    match goal with
    | E : _ && negb _ = true |- _ => apply andb_prop in E as [_ E]
    end; rewrite K in *; discriminate.
Qed.

(** With a first name displayed, choosing a domain runs no effect. *)
Lemma step_domain (a : App) (d : string) :
  truthy (firstName (userInfo (page a))) = true ->
  step a (ChooseDomain d) = handleDomainSelect d a.
Proof.
  intros T. unfold step, rerender; simpl handle.
  rewrite (commit_idle (page a)); [|reflexivity|reflexivity|exact T].
  now rewrite commit_idle.
Qed.

(** With a record displayed after initialisation, choosing a country of
    another code runs the effect of line 655, which calls [generate]. *)
Lemma step_country (a : App) (c : CountryConfig Locale) :
  isInitialized (page a) = true ->
  truthy (firstName (userInfo (page a))) = true ->
  code c <> code (selectedCountry (page a)) ->
  step a (ChooseCountry c)
  = generate (page (handleCountrySelect c a)) (handleCountrySelect c a).
Proof.
  intros I T N. unfold step, rerender; simpl handle.
  assert (C : commit (page a) (handleCountrySelect c a)
              = generate (page (handleCountrySelect c a)) (handleCountrySelect c a)).
  { unfold commit.
    rewrite (bool_decide_eq_true_2 (deps_isSaved _ = _)) by reflexivity.
    rewrite (bool_decide_eq_false_2 (deps_country _ = _)) by exact N.
    assert (G : effect_initial (page (handleCountrySelect c a)) (handleCountrySelect c a)
                = handleCountrySelect c a).
    { unfold effect_initial; simpl. rewrite T. now rewrite andb_false_r. }
    rewrite G. case_bool_decide; unfold effect_country; simpl; now rewrite I, T. }
  rewrite C. apply commit_idle; [reflexivity|reflexivity|exact T].
Qed.

(** Where the initial-generation effect has nothing to do (the page is
    not initialised, or shows a first name) or sees no change (the domain
    chosen is the selected one), choosing a domain runs no effect. *)
Lemma step_domain_quiet (a : App) (d : string) :
  firstName (userInfo (page a)) <> "" \/ isInitialized (page a) = false
    \/ d = selectedDomain (page a) ->
  step a (ChooseDomain d) = handleDomainSelect d a.
Proof.
  intros [N|[I|E]].
  - apply step_domain. now apply truthy_true.
  - unfold step, rerender; simpl handle.
    assert (C : commit (page a) (handleDomainSelect d a) = handleDomainSelect d a).
    { unfold commit.
      rewrite (bool_decide_eq_true_2 (deps_isSaved _ = _)) by reflexivity.
      rewrite (bool_decide_eq_true_2 (deps_country _ = _)) by reflexivity.
      case_bool_decide; [reflexivity|]. unfold effect_initial; simpl. now rewrite I. }
    rewrite C. now apply commit_unchanged.
  - unfold step; simpl handle. apply rerender_unchanged; try reflexivity.
    unfold deps_initial; simpl. now rewrite E.
Qed.

(** On an initialised page whose record is still blank, choosing another
    domain re-runs the initial-generation effect (line 653 lists
    [selectedDomain]) with the chosen domain. *)
Lemma step_domain_blank (a : App) (d : string) :
  isInitialized (page a) = true ->
  firstName (userInfo (page a)) = "" ->
  d <> selectedDomain (page a) ->
  let out := compose_identity (selectedCountry (page a)) d (run a) in
  run (step a (ChooseDomain d)) = out.1
  /\ userInfo (page (step a (ChooseDomain d)))
     = match out.2 with inr u => u | inl _ => userInfo (page a) end.
Proof.
  intros I B N out. unfold step; simpl handle.
  set (a1 := handleDomainSelect d a).
  assert (C : commit (page a) a1 = effect_initial (page a1) a1).
  { unfold commit.
    rewrite (bool_decide_eq_true_2 (deps_isSaved _ = _)) by reflexivity.
    rewrite (bool_decide_eq_true_2 (deps_country _ = _)) by reflexivity.
    rewrite bool_decide_eq_false_2; [reflexivity|].
    unfold deps_initial; simpl. congruence. }
  assert (E : run (effect_initial (page a1) a1) = out.1
              /\ userInfo (page (effect_initial (page a1) a1))
                 = match out.2 with inr u => u | inl _ => userInfo (page a) end).
  { unfold effect_initial; simpl. rewrite I, B; simpl. subst out.
    destruct (compose_identity (selectedCountry (page a)) d (run a)) as [r' [e|u]];
      split; reflexivity. }
  rewrite rerender_second_commit_keeps_record, C. split; [|apply E].
  unfold rerender. rewrite C.
  rewrite <- (proj1 E). apply commit_run.
  destruct (truthy (firstName (userInfo (page (effect_initial (page a1) a1)))))
    eqn:T; [now left|right].
  unfold effect_initial in *; simpl in *. rewrite I, B in *; simpl in *.
  destruct (compose_identity (selectedCountry (page a)) d (run a)) as [r' [e|u]];
    simpl in *; [reflexivity|].
  unfold deps_initial; simpl. rewrite B.
  destruct (firstName u); [reflexivity|discriminate].
Qed.

(** C9, as amended.  Choosing a domain sets the selected domain and never
    queues a request.  While a first name is displayed (or the page is not
    initialised, or the domain is the selected one) nothing else happens:
    the record with its email stays and no generator is invoked.  On an
    initialised page whose record is still blank, choosing another domain
    runs the composition for the chosen domain, and the record becomes its
    result when every generator returns.  With a record displayed after
    initialisation, choosing a country of another code issues a generation
    request for that country, and when its callback runs with every
    generator returning, the whole record is replaced. *)
Theorem C9_domain_keeps_record_country_regenerates (a : App) :
  (forall d,
     let a' := step a (ChooseDomain d) in
     selectedDomain (page a') = d
     /\ idleCallbacks a' = idleCallbacks a
     /\ isGenerating (page a') = isGenerating (page a)
     /\ (firstName (userInfo (page a)) <> "" \/ isInitialized (page a) = false
           \/ d = selectedDomain (page a) ->
         userInfo (page a') = userInfo (page a) /\ run a' = run a)
     /\ (isInitialized (page a) = true -> firstName (userInfo (page a)) = "" ->
         d <> selectedDomain (page a) ->
         let out := compose_identity (selectedCountry (page a)) d (run a) in
         run a' = out.1
         /\ userInfo (page a')
            = match out.2 with inr u => u | inl _ => userInfo (page a) end))
  /\ (forall c,
       isInitialized (page a) = true ->
       firstName (userInfo (page a)) <> "" ->
       code c <> code (selectedCountry (page a)) ->
       let a' := step a (ChooseCountry c) in
       let request := mkIdleCallback c (selectedDomain (page a)) in
       selectedCountry (page a') = c
       /\ isGenerating (page a') = true
       /\ idleCallbacks a' = idleCallbacks a ++ [request]
       /\ userInfo (page a') = userInfo (page a)
       /\ run a' = run a
       /\ forall u, all_return c (selectedDomain (page a)) (world (run a')) u ->
                    userInfo (page (idle_callback request a')) = u).
Proof.
  split.
  - intros d a'. subst a'.
    destruct (rerender_selection (page a) (handle (ChooseDomain d) a)) as (_ & Sd & _).
    destruct (rerender_same_country (page a) (handle (ChooseDomain d) a) eq_refl)
      as [G Q].
    split; [exact Sd|]. split; [exact Q|]. split; [exact G|]. split.
    + intros K. rewrite step_domain_quiet by exact K. split; reflexivity.
    + intros I B N. now apply step_domain_blank.
  - intros c Hinit Hshown N a' request. subst a'.
    apply truthy_true in Hshown. rewrite step_country by assumption.
    repeat split. intros u R. now apply idle_callback_shows.
Qed.

(** ** Saving *)

(** The guard of line 553. *)
Lemma handleSaveIdentity_guard (a : App) :
  email (userInfo (page a)) = "" \/ saveStatus (page a) = saving
    \/ isSaved (page a) = true ->
  step a PressSave = a.
Proof.
  intros G. unfold step; simpl.
  assert (N : handleSaveIdentity (page a) a = a).
  { unfold handleSaveIdentity. destruct G as [E|[E|E]]; rewrite E; simpl.
    - now rewrite orb_true_r.
    - reflexivity.
    - now rewrite orb_true_r. }
  rewrite N. now apply rerender_unchanged.
Qed.

(** The effect of lines 580-584 on a non-empty email. *)
Lemma effect_isSaved_recomputes (render : Page) (a : App) :
  email (userInfo render) <> "" ->
  isSaved (page (effect_isSaved render a))
  = isIdentitySaved (email (userInfo render)) (storage a).
Proof.
  intros N. apply truthy_true in N. unfold effect_isSaved. now rewrite N.
Qed.

(** [generate] clears the saved flag at once (line 532), while the
    record stays until the idle callback runs: the displayed record can
    then be saved whether or not it was saved before. *)
Lemma save_again_after_request (a : App) :
  email (userInfo (page a)) <> "" ->
  saveTimers a = [] ->
  exists i,
    saved_email i = email (userInfo (page a))
    /\ added (steps a [PressGenerate; PressSave; SaveTimerFires]) = added a ++ [i].
Proof.
  intros N Q. apply truthy_true in N.
  unfold steps; simpl fold_left. rewrite step_generate.
  set (a1 := generate (page a) a).
  assert (S1 : step a1 PressSave = handleSaveIdentity (page a1) a1).
  { unfold step; simpl handle. apply rerender_unchanged; subst a1;
      unfold handleSaveIdentity; simpl; rewrite N; reflexivity. }
  rewrite S1. set (a2 := handleSaveIdentity (page a1) a1).
  assert (T : saveTimers a2
              = [{| timer_userInfo := userInfo (page a);
                    timer_selectedCountry := selectedCountry (page a) |}]).
  { subst a2 a1. unfold handleSaveIdentity; simpl. rewrite N; simpl. now rewrite Q. }
  unfold step; simpl handle. rewrite T.
  eexists. split; [|rewrite rerender_unchanged; [| reflexivity ..]].
  2:{ subst a2 a1. unfold handleSaveIdentity; simpl. rewrite N; simpl. reflexivity. }
  reflexivity.
Qed.

(** C2.  When a generator throws, neither the idle callback of
    [generate] nor the initial-generation effect touches the record, and
    the record is still the previous one after the render that follows the
    callback; whenever one of the two does replace the record, every
    generator had returned and the new record holds what they returned;
    the handler of the request itself does not write the record. *)
Theorem C2_throw_keeps_previous_record
    (c : CountryConfig Locale) (d : string) (a : App) :
  (forall e, throws_during c d (world (run a)) e ->
     userInfo (page (idle_callback (mkIdleCallback c d) a)) = userInfo (page a)
     /\ (forall render, selectedCountry render = c -> selectedDomain render = d ->
          userInfo (page (effect_initial render a)) = userInfo (page a))
     /\ (forall rest, idleCallbacks a = mkIdleCallback c d :: rest ->
          userInfo (page (step a IdleCallbackRuns)) = userInfo (page a)))
  /\ (userInfo (page (idle_callback (mkIdleCallback c d) a)) <> userInfo (page a) ->
      all_return c d (world (run a)) (userInfo (page (idle_callback (mkIdleCallback c d) a))))
  /\ (forall render, selectedCountry render = c -> selectedDomain render = d ->
      userInfo (page (effect_initial render a)) <> userInfo (page a) ->
      all_return c d (world (run a)) (userInfo (page (effect_initial render a))))
  /\ userInfo (page (generate (page a) a)) = userInfo (page a).
Proof.
  split; [|split; [|split; [|reflexivity]]].
  - intros e T. apply throws_during_composes in T.
    split; [|split].
    + unfold idle_callback; simpl.
      destruct (compose_identity c d (run a)) as [r' [e'|u]]; [reflexivity|discriminate].
    + intros render <- <-. unfold effect_initial.
      destruct (isInitialized render && negb (truthy (firstName (userInfo render))));
        [|reflexivity].
      destruct (compose_identity _ _ (run a)) as [r' [e'|u]]; [reflexivity|discriminate].
    + intros rest Q. unfold step; simpl handle. rewrite Q.
      rewrite rerender_unchanged; unfold idle_callback; simpl;
        destruct (compose_identity c d (run a)) as [r' [e'|u]];
        try discriminate; reflexivity.
  - unfold idle_callback; simpl.
    destruct (compose_identity c d (run a)) as [r' [e'|u]] eqn:E; simpl.
    + congruence.
    + intros _. now apply compose_identity_returns in E.
  - intros render <- <-. unfold effect_initial.
    destruct (isInitialized render && negb (truthy (firstName (userInfo render))));
      [|congruence].
    destruct (compose_identity _ _ (run a)) as [r' [e'|u]] eqn:E; simpl.
    + congruence.
    + intros _. now apply compose_identity_returns in E.
Qed.

End PageFacts.

(** ** The page on the sample library *)

Section SampleRuns.

#[local] Existing Instance Sample.lib.

Import Sample.

Example sample_ready_record :
  userInfo (page ready)
  = {| firstName := "Anna"; lastName := "Schmidt"; birthday := "1990-04-12";
       phone := "+1 555 0102"; password := "Aa1!aaaaaaa3";
       email := "annaschmidt4@yopmail.com" |}
  /\ selectedCountry (page ready) = de
  /\ isInitialized (page ready) = true.
Proof. vm_compute. auto. Qed.

Example sample_search :
  filteredDomains toLowerCase_ascii domains "EXAMPLE"
  = ["Example.org"; "mail.example.com"]
  /\ visibleDomains toLowerCase_ascii domains
       {| searchQuery := "ex"; visibleCount := 1; filteredQuery := "EXAMPLE" |}
     = ["Example.org"].
Proof. vm_compute. auto. Qed.

(** Counterexample to C1 as stated: a request for the country whose name
    pools are empty invokes the Name Generator, which throws, and no
    other generator. *)
Lemma C1_counterexample_throw_skips_generators :
  ~ each_invoked_once aq "random" (run ready)
  /\ made (run ready) (run (steps ready [ChooseCountry aq; IdleCallbackRuns]))
     = [CallName "AQ"].
Proof.
  split.
  - intros E. specialize (E Birthday). vm_compute in E. discriminate.
  - vm_compute. reflexivity.
Qed.

(** C2 on the sample: the Name Generator throws for the country with
    empty pools, and the record of [ready] stays. *)
Lemma C2_witness_sample :
  throws_during aq "random" (world (run ready)) "ConfigError"
  /\ userInfo (page (idle_callback (mkIdleCallback aq "random") ready))
     = userInfo (page ready).
Proof.
  assert (T : throws_during aq "random" (world (run ready)) "ConfigError").
  { eapply name_throws. vm_compute. reflexivity. }
  split; [exact T|].
  exact (proj1 (proj1 (C2_throw_keeps_previous_record aq "random" ready) _ T)).
Defined.

(** C3 on the sample: the request of [ready] (domain ["random"]) passes
    no domain, an explicit domain is passed as it is. *)
Lemma C3_witness_sample :
  CallEmail "Anna" "Schmidt" None
    ∈ made (run (mount 0%nat ∅)) (compose_identity de "random" (run (mount 0%nat ∅))).1
  /\ None = (if bool_decide ("random" = "random") then None else Some "random").
Proof.
  assert (I : CallEmail "Anna" "Schmidt" None
                ∈ made (run (mount 0%nat ∅))
                    (compose_identity de "random" (run (mount 0%nat ∅))).1).
  { vm_compute. repeat constructor. }
  split; [exact I|].
  exact (proj1 (C3_sentinel_means_no_explicit_domain de "random"
                  (run (mount 0%nat ∅)) initial_page (mount 0%nat ∅)) _ _ _ I).
Defined.

(** C4 on the sample: a request for the United States with an explicit
    domain, run in the state [ready]. *)
Lemma C4_witness_sample :
  all_return us "inbox.test" (world (run ready))
    {| firstName := "Mary"; lastName := "Jones"; birthday := "1990-04-12";
       phone := "+1 555 0107"; password := "Aa1!aaaaaaa8";
       email := "maryjones9@inbox.test" |}
  /\ userInfo (page (idle_callback (mkIdleCallback us "inbox.test") ready))
     = {| firstName := "Mary"; lastName := "Jones"; birthday := "1990-04-12";
          phone := "+1 555 0107"; password := "Aa1!aaaaaaa8";
          email := "maryjones9@inbox.test" |}.
Proof.
  assert (R : all_return us "inbox.test" (world (run ready))
                {| firstName := "Mary"; lastName := "Jones"; birthday := "1990-04-12";
                   phone := "+1 555 0107"; password := "Aa1!aaaaaaa8";
                   email := "maryjones9@inbox.test" |}).
  { exists 6%nat, 7%nat, 8%nat, 9%nat, 10%nat. vm_compute. auto 6. }
  split; [exact R|].
  exact (proj1 (C4_success_replaces_every_field (mkIdleCallback us "inbox.test")
                  ready _ R)).
Defined.

(** The entry point as modelled rejects an implausible explicit domain
    (section 8: "not a domain" yields InvalidDomainError and no record),
    takes the sentinel for an absent choice, and passes a plausible domain
    on. *)
Example sample_entry_point :
  (Spec.generateIdentity de (Some "not a domain") 0%nat).2 = inl "InvalidDomainError"
  /\ Spec.generateIdentity de (Some "random") 0%nat = Spec.generateIdentity de None 0%nat
  /\ match (Spec.generateIdentity de (Some "inbox.test") 0%nat).2 with
     | inr u => email u = "annaschmidt4@inbox.test"
     | inl _ => False
     end.
Proof. vm_compute. auto. Qed.


(** Counterexample to C6 as stated: when the handler of a generation
    request returns, the flag is set, a callback is queued, and the record
    is the one of before. *)
Lemma C6_counterexample_request_is_deferred :
  ~ resolved_on_return ready
  /\ length (idleCallbacks (step ready PressGenerate)) = 1%nat
  /\ userInfo (page (step ready PressGenerate)) = userInfo (page ready)
  /\ run (step ready PressGenerate) = run ready.
Proof.
  split; [intros R; vm_compute in R; discriminate|].
  vm_compute. auto.
Qed.

(** C7 on the sample: the service names a code the table does not have. *)
Lemma C7_witness_sample :
  data_country unknown_answer = Some "ZZ"
  /\ (forall k, getCountryConfig "ZZ" <> inr (Some k))
  /\ selectedCountry (page (step (mount 0%nat ∅) (IpAnswer (inr unknown_answer)))) = us
  /\ isInitialized (page (step (mount 0%nat ∅) (IpAnswer (inr unknown_answer)))) = true.
Proof.
  assert (N : forall k, getCountryConfig "ZZ" <> inr (Some k)).
  { intros k. vm_compute. discriminate. }
  split; [reflexivity|]. split; [exact N|].
  destruct (proj2 (C7_unknown_country_keeps_default (H := lib) unknown_answer "ZZ" 0%nat ∅
                     eq_refl N)) as (S & I & _).
  split; [exact S | exact I].
Defined.

(** Counterexample to C9 as stated: on the initialised page whose initial
    generation failed, choosing a domain runs the generators again (the
    Name Generator is invoked and throws a second time), with no
    generation request made. *)
Lemma C9_counterexample_domain_change_reruns_generation :
  isInitialized (page stranded) = true
  /\ userInfo (page stranded) = blank
  /\ idleCallbacks stranded = []
  /\ ~ domain_change_regenerates_nothing stranded "inbox.test"
  /\ made (run stranded) (run (step stranded (ChooseDomain "inbox.test")))
     = [CallName "AQ"]
  /\ console (step stranded (ChooseDomain "inbox.test"))
     = console stranded ++ ["ConfigError"].
Proof.
  split; [reflexivity|]. split; [reflexivity|]. split; [reflexivity|].
  split; [|split; vm_compute; reflexivity].
  intros [C _]. vm_compute in C. discriminate.
Qed.

(** C9 on the sample: with the record of [ready] displayed a domain change
    keeps it and a change of country starts a request; on the blank page
    of [stranded] a domain change runs the composition. *)
Lemma C9_witness_sample :
  firstName (userInfo (page ready)) <> ""
  /\ userInfo (page (step ready (ChooseDomain "inbox.test"))) = userInfo (page ready)
  /\ run (step ready (ChooseDomain "inbox.test")) = run ready
  /\ isGenerating (page (step ready (ChooseCountry us))) = true
  /\ run (step stranded (ChooseDomain "inbox.test"))
     = (compose_identity aq "inbox.test" (run stranded)).1.
Proof.
  assert (I : isInitialized (page ready) = true) by reflexivity.
  assert (F : firstName (userInfo (page ready)) <> "") by (vm_compute; discriminate).
  split; [exact F|].
  pose proof (C9_domain_keeps_record_country_regenerates ready) as [D C].
  pose proof (C9_domain_keeps_record_country_regenerates stranded) as [D' _].
  destruct (D "inbox.test") as (_ & _ & _ & K & _).
  destruct (K (or_introl F)) as [K1 K2].
  split; [exact K1|]. split; [exact K2|]. split.
  - refine (proj1 (proj2 (C us I F _))). vm_compute. discriminate.
  - destruct (D' "inbox.test") as (_ & _ & _ & _ & B).
    refine (proj1 (B eq_refl eq_refl _)). vm_compute. discriminate.
Defined.

(** C10 on the sample.  The record of [kept] is saved and marked saved.
    A generation request followed by a save before the idle callback runs
    calls [addIdentity] a second time with the same email; so does a save
    after a generation that failed. *)
Theorem C10_same_email_saved_twice :
  saved_email <$> added kept = ["annaschmidt4@yopmail.com"]
  /\ isSaved (page kept) = true
  /\ saved_email <$> added (steps kept [PressGenerate; PressSave; SaveTimerFires])
     = ["annaschmidt4@yopmail.com"; "annaschmidt4@yopmail.com"]
  /\ ~ saved_once_per_email (steps kept [PressGenerate; PressSave; SaveTimerFires])
  /\ saved_email <$> added (steps kept [ChooseCountry aq; IdleCallbackRuns;
                                        PressSave; SaveTimerFires])
     = ["annaschmidt4@yopmail.com"; "annaschmidt4@yopmail.com"]
  /\ ~ saved_once_per_email (steps kept [ChooseCountry aq; IdleCallbackRuns;
                                         PressSave; SaveTimerFires]).
Proof.
  assert (D : forall e : string, ~ NoDup [e; e]).
  { intros e N. apply NoDup_cons in N as [N _]. apply N. left. }
  repeat split; try (vm_compute; reflexivity);
    unfold saved_once_per_email; intros N; vm_compute in N; exact (D _ N).
Qed.

End SampleRuns.

(** * Further properties *)

(** ** The domain list: searching and paging *)

Lemma string_app_assoc (a b c : string) : (a +:+ b) +:+ c = a +:+ (b +:+ c).
Proof. induction a as [|x a IH]; [reflexivity | exact (f_equal (String x) IH)]. Qed.

Lemma includes_trans (s t u : string) :
  includes s t = true -> includes t u = true -> includes s u = true.
Proof.
  rewrite !includes_spec. intros (p & q & ->) (p' & q' & ->).
  exists (p +:+ p'), (q' +:+ q). now rewrite !string_app_assoc.
Qed.

Lemma filter_filter_implied {A : Type} (f g : A -> bool) (l : list A) :
  (forall x, g x = true -> f x = true) ->
  List.filter g (List.filter f l) = List.filter g l.
Proof.
  intros I. induction l as [|x l IH]; simpl; [reflexivity|].
  destruct (f x) eqn:F; simpl.
  - destruct (g x); now rewrite IH.
  - destruct (g x) eqn:G; [apply I in G; congruence | exact IH].
Qed.

Lemma filter_sublist {A : Type} (f : A -> bool) (l : list A) :
  List.filter f l `sublist_of` l.
Proof.
  induction l as [|x l IH]; simpl; [constructor|].
  destruct (f x); now constructor.
Qed.

Lemma slice0_all {A : Type} (l : list A) (e : Z) :
  Z.of_nat (length l) <= e -> slice0 l e = l.
Proof.
  intros L. unfold slice0. destruct (Z.ltb_spec e 0); [lia|].
  apply take_ge. lia.
Qed.

Section DomainListRuns.

Variable toLowerCase : string -> string.

Local Abbreviation filtered all s := (filteredDomains toLowerCase all (filteredQuery s)).
Local Abbreviation visible all s := (visibleDomains toLowerCase all s).

(** X1.  Typing more never brings a domain back: when the lower-cased earlier
    query occurs inside the lower-cased later one, the later results are
    the earlier results filtered again, hence a sublist of them. *)
Theorem refined_query_filters_previous_results
    (allDomains : list string) (q1 q2 : string)
    (Hq2 : truthy q2 = true)
    (Hin : includes (toLowerCase q2) (toLowerCase q1) = true) :
  filteredDomains toLowerCase allDomains q2
  = filteredDomains toLowerCase (filteredDomains toLowerCase allDomains q1) q2
  /\ filteredDomains toLowerCase allDomains q2
     `sublist_of` filteredDomains toLowerCase allDomains q1.
Proof.
  assert (E : filteredDomains toLowerCase allDomains q2
              = filteredDomains toLowerCase (filteredDomains toLowerCase allDomains q1) q2).
  { unfold filteredDomains. rewrite Hq2; simpl.
    destruct (truthy q1); simpl; [|reflexivity].
    symmetry. apply filter_filter_implied.
    intros d D. eapply includes_trans; eassumption. }
  split; [exact E|]. rewrite E. unfold filteredDomains at 1. rewrite Hq2; simpl.
  apply filter_sublist.
Qed.

Lemma DomainList_step_kept (allDomains : list string) (r : DomainListRun)
    (ev : DomainListEvent) :
  DomainList_kept r -> DomainList_kept (DomainList_step toLowerCase allDomains r ev).
Proof.
  intros [V D]. destruct r as [[sq vc fq] pending]; simpl in *.
  destruct ev; unfold DomainList_kept, type_query; simpl.
  - split; [exact V|]. case_bool_decide; [subst; exact D | discriminate].
  - split; [exact V|]. case_bool_decide; [subst; exact D | discriminate].
  - destruct pending; simpl; [split; [lia|reflexivity] | split; [exact V|exact D]].
  - unfold sentinel_intersects; simpl.
    destruct (Z.ltb_spec vc (Z.of_nat (length (filteredDomains toLowerCase allDomains fq))));
      simpl; split; try exact D; lia.
Qed.

Lemma DomainList_steps_kept (allDomains : list string) (evs : list DomainListEvent)
    (r : DomainListRun) :
  DomainList_kept r -> DomainList_kept (DomainList_steps toLowerCase allDomains r evs).
Proof.
  revert r. induction evs as [|ev evs IH]; intros r K; [exact K|].
  apply IH. now apply DomainList_step_kept.
Qed.

Lemma DomainList_mount_kept : DomainList_kept DomainList_mount.
Proof. split; simpl; [lia | discriminate]. Qed.

(** X2.  In every run of the list, at least fifty domains are asked for, and
    the list shows that many of the filtered domains, or all of them when
    there are fewer. *)
Theorem visible_count_never_below_fifty
    (allDomains : list string) (evs : list DomainListEvent) :
  let s := list_state (DomainList_steps toLowerCase allDomains DomainList_mount evs) in
  50 <= visibleCount s
  /\ length (visible allDomains s)
     = Nat.min (Z.to_nat (visibleCount s)) (length (filtered allDomains s))
  /\ (Nat.min 50 (length (filtered allDomains s)) <= length (visible allDomains s))%nat.
Proof.
  intros s.
  destruct (DomainList_steps_kept allDomains evs _ DomainList_mount_kept) as [V _].
  fold s in V.
  assert (L : length (visible allDomains s)
              = Nat.min (Z.to_nat (visibleCount s)) (length (filtered allDomains s))).
  { unfold visibleDomains. rewrite slice0_length by lia. lia. }
  split; [exact V|]. split; [exact L|]. rewrite L. lia.
Qed.

(** X3.  In every run of the list, when no debounce timer is pending the list
    is filtered by exactly what the input holds. *)
Theorem settled_list_matches_input
    (allDomains : list string) (evs : list DomainListEvent) :
  let r := DomainList_steps toLowerCase allDomains DomainList_mount evs in
  debouncePending r = false ->
  filtered allDomains (list_state r)
  = filteredDomains toLowerCase allDomains (searchQuery (list_state r)).
Proof.
  intros r P.
  destruct (DomainList_steps_kept allDomains evs _ DomainList_mount_kept) as [_ D].
  fold r in D. now rewrite (D P).
Qed.

(** X4.  Paging reaches the end: from a non-negative count, [n] reports of the
    sentinel with [visibleCount + 50 n] at least the number of filtered
    domains make every filtered domain visible, and the query is untouched. *)
Theorem paging_shows_every_filtered_domain
    (allDomains : list string) (s : DomainListState) (n : nat)
    (Hcount : 0 <= visibleCount s)
    (Henough : Z.of_nat (length (filtered allDomains s)) <= visibleCount s + 50 * Z.of_nat n) :
  let s' := Nat.iter n (sentinel_intersects toLowerCase allDomains) s in
  filteredQuery s' = filteredQuery s
  /\ visible allDomains s' = filtered allDomains s.
Proof.
  assert (G : forall k,
            let s' := Nat.iter k (sentinel_intersects toLowerCase allDomains) s in
            filteredQuery s' = filteredQuery s
            /\ searchQuery s' = searchQuery s
            /\ Z.min (visibleCount s + 50 * Z.of_nat k)
                     (Z.of_nat (length (filtered allDomains s)))
               <= visibleCount s').
  { induction k as [|k IH].
    - simpl. repeat split. lia.
    - destruct IH as (F & Q & V).
      change (Nat.iter (S k) (sentinel_intersects toLowerCase allDomains) s)
        with (sentinel_intersects toLowerCase allDomains
                (Nat.iter k (sentinel_intersects toLowerCase allDomains) s)).
      set (t := Nat.iter k (sentinel_intersects toLowerCase allDomains) s) in *.
      unfold sentinel_intersects. rewrite F.
      destruct (Z.ltb_spec (visibleCount t)
                  (Z.of_nat (length (filtered allDomains s)))); simpl.
      + repeat split; try assumption. lia.
      + repeat split; try assumption. lia. }
  intros s'. destruct (G n) as (F & _ & V). fold s' in F, V.
  split; [exact F|]. unfold visibleDomains. rewrite F. apply slice0_all. lia.
Qed.

(** X5.  In every run of the list the panel is never blank: it shows the
    random item, or at least one domain, or the "no match" message.  The
    message is shown only with nothing else, and the sentinel exactly when
    some filtered domain is not yet visible. *)
Theorem list_panel_never_blank
    (allDomains : list string) (evs : list DomainListEvent) :
  let s := list_state (DomainList_steps toLowerCase allDomains DomainList_mount evs) in
  (shows_random_item s = true \/ visible allDomains s <> []
   \/ shows_no_match toLowerCase allDomains s = true)
  /\ (shows_no_match toLowerCase allDomains s = true ->
      shows_random_item s = false /\ visible allDomains s = []
      /\ shows_sentinel toLowerCase allDomains s = false)
  /\ (shows_sentinel toLowerCase allDomains s = true
      <-> (length (visible allDomains s) < length (filtered allDomains s))%nat).
Proof.
  intros s.
  destruct (visible_count_never_below_fifty allDomains evs) as (V & L & M).
  fold s in V, L, M.
  unfold shows_random_item, shows_no_match, shows_sentinel.
  split; [|split].
  - destruct (truthy (filteredQuery s)) eqn:T; simpl; [|now left].
    right. destruct (length (filtered allDomains s)) as [|k] eqn:E; simpl.
    + now right.
    + left. intros N. apply (f_equal length) in N. simpl in N. lia.
  - rewrite andb_true_iff, Nat.eqb_eq. intros [E T]. rewrite T. simpl.
    split; [reflexivity|]. split.
    + apply length_zero_iff_nil. rewrite L, E. lia.
    + rewrite E. apply Z.ltb_ge. lia.
  - rewrite Z.ltb_lt, L. lia.
Qed.

End DomainListRuns.

Section DomainListSamples.

Import Sample.

Lemma refined_query_witness :
  truthy "Mail.ex" = true
  /\ includes (toLowerCase_ascii "Mail.ex") (toLowerCase_ascii "EX") = true
  /\ filteredDomains toLowerCase_ascii domains "Mail.ex"
     `sublist_of` filteredDomains toLowerCase_ascii domains "EX".
Proof.
  split; [reflexivity|]. split; [reflexivity|].
  exact (proj2 (refined_query_filters_previous_results toLowerCase_ascii domains
                  "EX" "Mail.ex" eq_refl eq_refl)).
Defined.

Lemma paging_witness :
  0 <= visibleCount (mkDomainListState "" 1 "")
  /\ Z.of_nat (length (filteredDomains toLowerCase_ascii domains "")) <= 1 + 50 * Z.of_nat 1
  /\ visibleDomains toLowerCase_ascii domains
       (Nat.iter 1 (sentinel_intersects toLowerCase_ascii domains)
          (mkDomainListState "" 1 ""))
     = domains.
Proof.
  assert (A : 0 <= visibleCount (mkDomainListState "" 1 "")) by (simpl; lia).
  assert (B : Z.of_nat (length (filteredDomains toLowerCase_ascii domains
                                  (filteredQuery (mkDomainListState "" 1 ""))))
              <= visibleCount (mkDomainListState "" 1 "") + 50 * Z.of_nat 1)
    by (vm_compute; discriminate).
  split; [exact A|]. split; [exact B|].
  exact (proj2 (paging_shows_every_filtered_domain toLowerCase_ascii domains
                  (mkDomainListState "" 1 "") 1 A B)).
Defined.

Lemma settled_list_witness :
  debouncePending
    (DomainList_steps toLowerCase_ascii domains DomainList_mount
       [Typed "ex"; Typed "exa"; DebounceFires]) = false
  /\ filteredDomains toLowerCase_ascii domains
       (filteredQuery (list_state
          (DomainList_steps toLowerCase_ascii domains DomainList_mount
             [Typed "ex"; Typed "exa"; DebounceFires])))
     = filteredDomains toLowerCase_ascii domains "exa".
Proof.
  split; [reflexivity|].
  exact (settled_list_matches_input toLowerCase_ascii domains
           [Typed "ex"; Typed "exa"; DebounceFires] eq_refl).
Defined.

End DomainListSamples.

(** ** Runs of the page *)

Section PageRuns.

Context `{Imports}.

Ltac open_effects :=
  unfold commit, effect_isSaved, effect_initial, effect_country,
    generate, on_page; simpl.

Ltac case_effects :=
  repeat first
    [ case_bool_decide
    | match goal with
      | |- context [compose_identity ?c ?d ?r] =>
          destruct (compose_identity c d r) as [? [?|?]]
      | |- context [if ?b then _ else _] => destruct b eqn:?
      end ]; simpl.

Lemma app_singleton_not_nil {A : Type} (l : list A) (x : A) : l ++ [x] <> [].
Proof. destruct l; discriminate. Qed.

Lemma or_default_not_empty (o : option string) (d : string) :
  d <> "" -> or_default o d <> "".
Proof.
  intros D. unfold or_default. destruct o as [s|]; [|exact D].
  destruct s; simpl; [exact D | discriminate].
Qed.

(** No effect touches the store, the timers or the IP badge. *)
Lemma commit_outside (prev : Page) (a : App) :
  storage (commit prev a) = storage a
  /\ added (commit prev a) = added a
  /\ saveTimers (commit prev a) = saveTimers a
  /\ resetTimer (commit prev a) = resetTimer a
  /\ ipInfo (page (commit prev a)) = ipInfo (page a).
Proof. open_effects. case_effects; auto. Qed.

Lemma rerender_outside (prev : Page) (a : App) :
  storage (rerender prev a) = storage a
  /\ added (rerender prev a) = added a
  /\ saveTimers (rerender prev a) = saveTimers a
  /\ resetTimer (rerender prev a) = resetTimer a
  /\ ipInfo (page (rerender prev a)) = ipInfo (page a).
Proof.
  unfold rerender.
  destruct (commit_outside (page a) (commit prev a)) as (-> & -> & -> & -> & ->).
  apply commit_outside.
Qed.

Lemma generate_kept (render : Page) (a : App) :
  page_kept a -> page_kept (generate render a).
Proof.
  intros (G & S1 & S2 & T & A & I & C). unfold page_kept, generate; simpl.
  repeat split; try assumption; try discriminate.
  intros _. apply app_singleton_not_nil.
Qed.

Lemma effect_isSaved_kept (render : Page) (a : App) :
  page_kept a -> page_kept (effect_isSaved render a).
Proof. intros K. unfold effect_isSaved. destruct (truthy _); exact K. Qed.

Lemma effect_initial_kept (render : Page) (a : App) :
  page_kept a -> page_kept (effect_initial render a).
Proof.
  intros K. unfold effect_initial. destruct (_ && _); [|exact K].
  destruct (compose_identity _ _ (run a)) as [r [e|u]]; exact K.
Qed.

Lemma effect_country_kept (render : Page) (a : App) :
  page_kept a -> page_kept (effect_country render a).
Proof.
  intros K. unfold effect_country. destruct (_ && _); [|exact K].
  now apply generate_kept.
Qed.

Lemma commit_kept (prev : Page) (a : App) : page_kept a -> page_kept (commit prev a).
Proof.
  intros K. unfold commit.
  repeat case_bool_decide;
    auto using effect_isSaved_kept, effect_initial_kept, effect_country_kept.
Qed.

Lemma rerender_kept (prev : Page) (a : App) : page_kept a -> page_kept (rerender prev a).
Proof. intros K. unfold rerender. now do 2 apply commit_kept. Qed.

Lemma initializeApp_frame (isMounted : bool) (response : exn + IpData) (p : Page) :
  let p' := initializeApp isMounted response p in
  isGenerating p' = isGenerating p
  /\ saveStatus p' = saveStatus p
  /\ isSaved p' = isSaved p
  /\ userInfo p' = userInfo p
  /\ selectedDomain p' = selectedDomain p
  /\ copiedField p' = copiedField p
  /\ (ip (ipInfo p) <> "" -> ip (ipInfo p') <> "")
  /\ (country (ipInfo p) <> "" -> country (ipInfo p') <> "").
Proof.
  unfold initializeApp, initializeApp_try, initializeApp_catch, initializeApp_finally,
    or_default.
  destruct isMounted, response as [e|[[[|? ?]|] [[|? ?]|] acc]]; simpl;
    try destruct acc; simpl;
    try match goal with
      | |- context [getCountryConfig ?c] =>
          destruct (getCountryConfig c) as [?|[?|]]; simpl
      end;
    repeat split; auto; discriminate.
Qed.

Lemma handle_kept (ev : Event) (a : App) : page_kept a -> page_kept (handle ev a).
Proof.
  intros K. destruct ev; simpl.
  - now apply generate_kept.
  - destruct (idleCallbacks a) as [|cb rest] eqn:Q; [exact K|].
    destruct K as (G & S1 & S2 & T & A & I & C).
    unfold page_kept, idle_callback; simpl.
    destruct (compose_identity _ _ (run a)) as [r [e|u]]; simpl;
      repeat split; try assumption; discriminate.
  - unfold handleSaveIdentity.
    destruct (bool_decide (saveStatus (page a) = saving) || isSaved (page a)
              || negb (truthy (email (userInfo (page a))))) eqn:Guard; [exact K|].
    apply orb_false_iff in Guard as [_ E]. apply negb_false_iff, truthy_true in E.
    destruct K as (G & S1 & S2 & T & A & I & C).
    unfold page_kept; simpl. repeat split; try assumption; try discriminate.
    + intros _. apply app_singleton_not_nil.
    + apply Forall_app. split; [exact T|]. now constructor.
  - destruct (saveTimers a) as [|t rest] eqn:Q; [exact K|].
    destruct K as (G & S1 & S2 & T & A & I & C). rewrite Q in T.
    apply Forall_cons in T as [Te T].
    unfold page_kept, save_timer; simpl. repeat split; try assumption; try discriminate.
    apply Forall_app. split; [exact A|]. now constructor.
  - destruct (resetTimer a); [|exact K].
    destruct K as (G & S1 & S2 & T & A & I & C).
    unfold page_kept, reset_timer; simpl. repeat split; try assumption; discriminate.
  - exact K.
  - exact K.
  - destruct (initializing a); [|exact K].
    destruct K as (G & S1 & S2 & T & A & I & C).
    destruct (initializeApp_frame true response (page a))
      as (Fg & Fs & _ & _ & _ & _ & Fi & Fc).
    unfold page_kept, on_page, with_initializing, with_page.
    cbn [page idleCallbacks saveTimers resetTimer added].
    rewrite Fg, Fs. repeat split; auto.
Qed.

Lemma step_kept (a : App) (ev : Event) : page_kept a -> page_kept (step a ev).
Proof. intros K. unfold step. now apply rerender_kept, handle_kept. Qed.

Lemma steps_kept (evs : list Event) (a : App) : page_kept a -> page_kept (steps a evs).
Proof.
  revert a. induction evs as [|ev evs IH]; intros a K; [exact K|].
  apply IH. now apply step_kept.
Qed.

Lemma mount_kept (w : World) (st : gmap string SavedIdentity) : page_kept (mount w st).
Proof.
  unfold page_kept; simpl. repeat split; try discriminate; constructor.
Qed.

(** X6.  In every run of the page, a set generating flag has an idle callback
    queued that will reset it: the button's spinner cannot stick. *)
Theorem generating_flag_has_pending_callback
    (w : World) (st : gmap string SavedIdentity) (evs : list Event) :
  let a := steps (mount w st) evs in
  if isGenerating (page a) then idleCallbacks a <> [] else True.
Proof.
  intros a. destruct (steps_kept evs _ (mount_kept w st)) as (G & _).
  fold a in G. destruct (isGenerating (page a)); auto.
Qed.


(** X8.  In every run of the page, every identity handed to [addIdentity]
    has a non-empty email. *)
Theorem saved_identities_have_email
    (w : World) (st : gmap string SavedIdentity) (evs : list Event) :
  Forall (fun i => saved_email i <> "") (added (steps (mount w st) evs)).
Proof. now destruct (steps_kept evs _ (mount_kept w st)) as (_ & _ & _ & _ & A & _). Qed.

(** X9.  In every run of the page, the IP badge and its country are never
    empty, whatever the IP service answers. *)
Theorem ip_badge_never_blank
    (w : World) (st : gmap string SavedIdentity) (evs : list Event) :
  ip (ipInfo (page (steps (mount w st) evs))) <> ""
  /\ country (ipInfo (page (steps (mount w st) evs))) <> "".
Proof. now destruct (steps_kept evs _ (mount_kept w st)) as (_ & _ & _ & _ & _ & I). Qed.

(** X10.  [initializeApp] ends with [isInitialized] set whenever the component
    is mounted, whether the service answered, the request failed or the
    lookup threw; after an unmount it writes no state at all. *)
Theorem initializeApp_always_initializes (response : exn + IpData) (p : Page) :
  isInitialized (initializeApp true response p) = true
  /\ initializeApp false response p = p.
Proof.
  unfold initializeApp, initializeApp_try, initializeApp_catch, initializeApp_finally.
  split.
  - reflexivity.
  - destruct response as [e|data]; reflexivity.
Qed.

(** X11.  [initializeApp] changes the selected country only to the country
    [getCountryConfig] returns for a non-empty code that the service
    reports as accurate; and it does adopt that country when mounted. *)
Theorem country_changes_only_to_detected
    (isMounted : bool) (response : exn + IpData) (p : Page) :
  (selectedCountry (initializeApp isMounted response p) = selectedCountry p
   \/ exists data c,
        response = inr data /\ data_country data = Some c /\ c <> ""
        /\ data_accurate data = true
        /\ getCountryConfig c
           = inr (Some (selectedCountry (initializeApp isMounted response p))))
  /\ (forall data c k,
        response = inr data -> data_country data = Some c -> c <> "" ->
        data_accurate data = true -> getCountryConfig c = inr (Some k) ->
        selectedCountry (initializeApp true response p) = k).
Proof.
  unfold initializeApp, initializeApp_try, initializeApp_catch, initializeApp_finally.
  split.
  - destruct isMounted, response as [e|[i [c|] acc]]; simpl; auto.
    destruct (truthy c) eqn:T, acc; simpl; auto.
    destruct (getCountryConfig c) as [?|[k|]] eqn:G; simpl; auto.
    right. eexists _, c. repeat split; try reflexivity; try exact G.
    now apply truthy_true.
  - intros data c k -> C N A G. simpl. rewrite C.
    apply truthy_true in N. rewrite N, A, G. reflexivity.
Qed.

Lemma step_save_event (a : App) (ev : Event) :
  is_save_event ev = true -> step a ev = handle ev a.
Proof.
  intros S. unfold step. apply rerender_unchanged;
    destruct ev; try discriminate; simpl.
  all: try (unfold handleSaveIdentity; destruct (_ || _); reflexivity).
  all: try (destruct (saveTimers a); reflexivity).
  all: destruct (resetTimer a); reflexivity.
Qed.

(** X12.  Pressing save and the two timers of a save leave the displayed
    record, the selection, the generators and the queued requests alone. *)
Theorem save_events_keep_record (a : App) (ev : Event)
    (Hsave : is_save_event ev = true) :
  userInfo (page (step a ev)) = userInfo (page a)
  /\ selectedCountry (page (step a ev)) = selectedCountry (page a)
  /\ selectedDomain (page (step a ev)) = selectedDomain (page a)
  /\ run (step a ev) = run a
  /\ idleCallbacks (step a ev) = idleCallbacks a
  /\ isGenerating (page (step a ev)) = isGenerating (page a).
Proof.
  rewrite step_save_event by exact Hsave.
  destruct ev; try discriminate; simpl.
  - unfold handleSaveIdentity; destruct (_ || _); simpl; auto 10.
  - destruct (saveTimers a); simpl; auto 10.
  - destruct (resetTimer a); simpl; auto 10.
Qed.

Lemma handle_store (a : App) (ev : Event) :
  is_SaveTimerFires ev = false ->
  added (handle ev a) = added a /\ storage (handle ev a) = storage a.
Proof.
  intros S. destruct ev; try discriminate; simpl; auto.
  - destruct (idleCallbacks a); simpl; auto. unfold idle_callback; simpl.
    destruct (compose_identity _ _ (run a)) as [r [e|u]]; auto.
  - unfold handleSaveIdentity; destruct (_ || _); auto.
  - destruct (resetTimer a); auto.
  - destruct (initializing a); auto.
Qed.

(** X13.  Only the save timer writes: every other event, whatever effects it
    triggers, leaves the store and the list of saved identities as they
    were. *)
Theorem only_save_timer_writes_store (a : App) (ev : Event)
    (Hother : is_SaveTimerFires ev = false) :
  added (step a ev) = added a /\ storage (step a ev) = storage a.
Proof.
  unfold step.
  destruct (rerender_outside (page a) (handle ev a)) as (-> & -> & _).
  destruct (handle_store a ev Hother) as [-> ->]. auto.
Qed.

Lemma handle_save_counts (a : App) (ev : Event) :
  (length (added (handle ev a)) + length (saveTimers (handle ev a))
   <= length (added a) + length (saveTimers a) + (if is_PressSave ev then 1 else 0))%nat.
Proof.
  destruct ev; simpl; try lia.
  - destruct (idleCallbacks a); simpl; [lia|]. unfold idle_callback; simpl.
    destruct (compose_identity _ _ (run a)) as [r [e|u]]; simpl; lia.
  - unfold handleSaveIdentity; destruct (_ || _); simpl; [lia|].
    rewrite length_app; simpl; lia.
  - destruct (saveTimers a) eqn:Q; simpl; [rewrite Q; simpl; lia|].
    rewrite length_app; simpl; lia.
  - destruct (resetTimer a); simpl; lia.
  - destruct (initializing a); simpl; lia.
Qed.

Lemma steps_save_counts (evs : list Event) (a : App) :
  (length (added (steps a evs)) + length (saveTimers (steps a evs))
   <= length (added a) + length (saveTimers a) + length (List.filter is_PressSave evs))%nat.
Proof.
  revert a. induction evs as [|ev evs IH]; intros a; [simpl; lia|].
  change (steps a (ev :: evs)) with (steps (step a ev) evs).
  specialize (IH (step a ev)).
  assert (S : (length (added (step a ev)) + length (saveTimers (step a ev))
               <= length (added a) + length (saveTimers a)
                  + (if is_PressSave ev then 1 else 0))%nat).
  { unfold step.
    destruct (rerender_outside (page a) (handle ev a)) as (_ & -> & -> & _).
    apply handle_save_counts. }
  simpl. destruct (is_PressSave ev); simpl; lia.
Qed.

(** X14.  Every save goes back to a press: in every run of the page, the
    identities handed to [addIdentity] together with the save timers still
    pending are at most as many as the presses of save. *)
Theorem saves_never_exceed_presses
    (w : World) (st : gmap string SavedIdentity) (evs : list Event) :
  (length (added (steps (mount w st) evs))
   + length (saveTimers (steps (mount w st) evs))
   <= length (List.filter is_PressSave evs))%nat.
Proof. pose proof (steps_save_counts evs (mount w st)) as C. simpl in C. lia. Qed.

Lemma step_keeps_oldest_timer (a : App) (ev : Event) (t : SaveTimer)
    (rest : list SaveTimer) :
  saveTimers a = t :: rest ->
  is_SaveTimerFires ev = false ->
  exists rest', saveTimers (step a ev) = t :: rest' /\ added (step a ev) = added a.
Proof.
  intros Q S. unfold step.
  destruct (rerender_outside (page a) (handle ev a)) as (_ & -> & -> & _).
  destruct (handle_store a ev S) as [-> _].
  destruct ev; try discriminate; simpl; eauto.
  - destruct (idleCallbacks a); simpl; eauto. unfold idle_callback; simpl.
    destruct (compose_identity _ _ (run a)) as [r [e|u]]; simpl; eauto.
  - unfold handleSaveIdentity; destruct (_ || _); simpl; eauto.
    rewrite Q. simpl. eauto.
  - destruct (resetTimer a); simpl; eauto.
  - destruct (initializing a); simpl; eauto.
Qed.

Lemma steps_keep_oldest_timer (evs : list Event) (a : App) (t : SaveTimer)
    (rest : list SaveTimer) :
  saveTimers a = t :: rest ->
  Forall (fun ev => is_SaveTimerFires ev = false) evs ->
  exists rest', saveTimers (steps a evs) = t :: rest' /\ added (steps a evs) = added a.
Proof.
  revert a rest. induction evs as [|ev evs IH]; intros a rest Q F; [simpl; eauto|].
  apply Forall_cons in F as [F1 F].
  destruct (step_keeps_oldest_timer a ev t rest Q F1) as (rest1 & Q1 & A1).
  destruct (IH (step a ev) rest1 Q1 F) as (rest' & Q' & A').
  exists rest'. change (steps a (ev :: evs)) with (steps (step a ev) evs).
  split; [exact Q' | congruence].
Qed.

(** X15.  What is saved is what was displayed when save was pressed: with no
    save pending, a press that passes the guard, followed by any events
    other than the save timer (a new generation, another country), and
    then the save timer, hands [addIdentity] the record and the country of
    the moment of the press. *)
Theorem saved_identity_is_record_at_press (a : App) (evs : list Event)
    (Hemail : email (userInfo (page a)) <> "")
    (Hstatus : saveStatus (page a) <> saving)
    (Hflag : isSaved (page a) = false)
    (Hnone : saveTimers a = [])
    (Hevents : Forall (fun ev => is_SaveTimerFires ev = false) evs) :
  added (steps a (PressSave :: evs ++ [SaveTimerFires]))
  = added a ++ [saved_identity {| timer_userInfo := userInfo (page a);
                                  timer_selectedCountry := selectedCountry (page a) |}].
Proof.
  set (t := {| timer_userInfo := userInfo (page a);
               timer_selectedCountry := selectedCountry (page a) |}).
  assert (P : saveTimers (step a PressSave) = [t] /\ added (step a PressSave) = added a).
  { rewrite step_save_event by reflexivity. simpl. unfold handleSaveIdentity.
    apply truthy_true in Hemail. rewrite Hemail, Hflag.
    rewrite bool_decide_eq_false_2 by exact Hstatus. simpl. now rewrite Hnone. }
  destruct P as [Q A].
  destruct (steps_keep_oldest_timer evs (step a PressSave) t [] Q Hevents)
    as (rest' & Q' & A').
  change (steps a (PressSave :: evs ++ [SaveTimerFires]))
    with (steps (step a PressSave) (evs ++ [SaveTimerFires])).
  unfold steps at 1. rewrite fold_left_app. fold (steps (step a PressSave) evs).
  simpl. rewrite step_save_event by reflexivity. simpl. rewrite Q'. simpl.
  now rewrite A', A.
Qed.

Lemma commit_composes (prev : Page) (a : App) :
  truthy (firstName (userInfo (page a))) = true
    \/ deps_initial (page a) = deps_initial prev ->
  run (commit prev a) = run a /\ console (commit prev a) = console a.
Proof.
  intros P. unfold commit, effect_initial.
  destruct P as [T|E].
  - rewrite T, andb_false_r.
    unfold effect_isSaved, effect_country, generate, on_page.
    repeat case_bool_decide; repeat case_match; simpl; auto.
  - rewrite (bool_decide_eq_true_2 _ E).
    unfold effect_isSaved, effect_country, generate, on_page.
    repeat case_bool_decide; repeat case_match; simpl; auto.
Qed.

(** The effects that follow an event compose at most one identity: the
    second commit never invokes a generator. *)
Lemma rerender_composes_once (prev : Page) (a : App) :
  run (rerender prev a) = run (commit prev a)
  /\ console (rerender prev a) = console (commit prev a).
Proof.
  unfold rerender. apply commit_composes.
  destruct (truthy (firstName (userInfo (page (commit prev a))))) eqn:T; [now left|].
  right. destruct (commit_selection prev a) as (Sc & Sd & Si).
  unfold deps_initial. rewrite Sc, Sd, Si. do 3 f_equal.
  apply truthy_false in T. rewrite T.
  destruct (decide (userInfo (page (commit prev a)) = userInfo (page a))) as [E|N].
  - now rewrite <- E, T.
  - apply commit_writes_record in N as [B _]. now apply truthy_false in B.
Qed.

(** X16.  The first identity needs no request: when [initializeApp] resumes,
    the effects compose exactly one identity, for the country selected by
    then and a random domain, and show it (or log the error and leave the
    record blank); no request is queued and the generating flag stays
    down. *)
Theorem first_identity_on_initialization
    (w : World) (st : gmap string SavedIdentity) (response : exn + IpData) :
  let a := step (mount w st) (IpAnswer response) in
  let out := compose_identity (selectedCountry (page a)) "random" (run (mount w st)) in
  run a = out.1
  /\ userInfo (page a) = match out.2 with inr u => u | inl _ => blank end
  /\ console a = match out.2 with inr _ => [] | inl e => [e] end
  /\ idleCallbacks a = []
  /\ isGenerating (page a) = false
  /\ isInitialized (page a) = true.
Proof.
  intros a out. subst a out. unfold step.
  set (a1 := handle (IpAnswer response) (mount w st)).
  destruct (rerender_selection (page (mount w st)) a1) as (Sc & _ & Si).
  destruct (rerender_composes_once (page (mount w st)) a1) as (Rr & Rc).
  pose proof (rerender_second_commit_keeps_record (page (mount w st)) a1) as Ru.
  rewrite Sc, Si, Rr, Rc, Ru.
  destruct (initializeApp_frame true response initial_page)
    as (Fg & Fs & Fv & Fu & Fd & _).
  destruct (initializeApp_always_initializes response initial_page) as [Fi _].
  assert (P1 : page a1 = initializeApp true response initial_page) by reflexivity.
  assert (C : commit (page (mount w st)) a1
              = effect_initial (page a1) a1).
  { unfold commit.
    rewrite (bool_decide_eq_true_2 (deps_isSaved _ = _))
      by (unfold deps_isSaved; rewrite P1, Fu; reflexivity).
    rewrite (bool_decide_eq_false_2 (deps_initial _ = _))
      by (unfold deps_initial; rewrite P1, Fi; simpl; congruence).
    case_bool_decide; [reflexivity|].
    unfold effect_country, effect_initial. rewrite P1, Fi, Fu. reflexivity. }
  assert (G : isGenerating (page (rerender (page (mount w st)) a1)) = false
              /\ idleCallbacks (rerender (page (mount w st)) a1) = []).
  { unfold rerender. rewrite C.
    destruct (commit_same_country (page a1) (effect_initial (page a1) a1)) as [-> ->].
    - unfold effect_initial. destruct (_ && _); [|reflexivity].
      destruct (compose_identity _ _ (run a1)) as [r [e|u]]; reflexivity.
    - assert (G1 : isGenerating (page a1) = false) by (rewrite P1, Fg; reflexivity).
      assert (Q1 : idleCallbacks a1 = []) by reflexivity.
      unfold effect_initial. destruct (_ && _); [|auto].
      destruct (compose_identity _ _ (run a1)) as [r [e|u]]; auto. }
  destruct G as [-> ->]. rewrite C.
  assert (Gd : isInitialized (page a1)
               && negb (truthy (firstName (userInfo (page a1)))) = true)
    by (rewrite P1, Fi, Fu; reflexivity).
  assert (Sd : selectedDomain (page a1) = "random") by (rewrite P1, Fd; reflexivity).
  assert (U : userInfo (page a1) = blank) by (rewrite P1, Fu; reflexivity).
  unfold effect_initial. rewrite Gd, Sd.
  change (run a1) with (run (mount w st)).
  match goal with
  | |- context [compose_identity ?c ?d ?r] =>
      destruct (compose_identity c d r) as [r' [e|u]]
  end; repeat split; try reflexivity; try exact U; exact Fi.
Qed.

End PageRuns.

(** ** Runs of the shell *)

Section ShellRuns.

Context `{Imports}.

Lemma with_shell_app_id (sh : Shell) : with_shell_app (shell_app sh) sh = sh.
Proof. now destruct sh. Qed.

(** An event that leaves the dependencies of every effect alone is
    followed by no effect. *)
Lemma shell_step_quiet (sh : Shell) (ev : ShellEvent) :
  deps_isSaved (page (shell_app (shell_handle ev sh))) = deps_isSaved (page (shell_app sh)) ->
  deps_initial (page (shell_app (shell_handle ev sh))) = deps_initial (page (shell_app sh)) ->
  deps_country (page (shell_app (shell_handle ev sh))) = deps_country (page (shell_app sh)) ->
  shell_step sh ev = shell_handle ev sh.
Proof.
  intros E1 E2 E3. unfold shell_step.
  rewrite rerender_unchanged by assumption. apply with_shell_app_id.
Qed.

Lemma shell_step_on_page (sh : Shell) (ev : Event) :
  shell_step sh (OnPage ev) = with_shell_app (step (shell_app sh) ev) sh.
Proof. unfold shell_step, step; simpl. now destruct sh. Qed.

Lemma commit_copiedField (prev : Page) (a : App) :
  copiedField (page (commit prev a)) = copiedField (page a)
  \/ copiedField (page (commit prev a)) = None.
Proof.
  unfold commit, effect_isSaved, effect_initial, effect_country, generate, on_page.
  repeat case_bool_decide; repeat case_match; simpl; auto.
Qed.

Lemma rerender_copiedField (prev : Page) (a : App) :
  copiedField (page (rerender prev a)) = copiedField (page a)
  \/ copiedField (page (rerender prev a)) = None.
Proof.
  unfold rerender.
  destruct (commit_copiedField (page a) (commit prev a)) as [-> | ->]; [|now right].
  apply commit_copiedField.
Qed.

Lemma handle_copiedField (ev : Event) (a : App) :
  copiedField (page (handle ev a)) = copiedField (page a)
  \/ copiedField (page (handle ev a)) = None.
Proof.
  destruct ev; cbn [handle]; auto.
  - destruct (idleCallbacks a); auto. unfold idle_callback; simpl.
    destruct (compose_identity _ _ (run a)) as [r [e|u]]; auto.
  - unfold handleSaveIdentity; destruct (_ || _); auto.
  - destruct (saveTimers a); auto.
  - destruct (resetTimer a); auto.
  - destruct (initializing a); auto.
    destruct (initializeApp_frame true response (page a)) as (_ & _ & _ & _ & _ & Fc & _).
    left. exact Fc.
Qed.

Lemma shell_kept_rerender (prev : Page) (sh : Shell) :
  shell_kept sh -> shell_kept (with_shell_app (rerender prev (shell_app sh)) sh).
Proof.
  intros (C & K). split; [|exact K]. simpl.
  destruct (rerender_copiedField prev (shell_app sh)) as [-> | ->]; [exact C | congruence].
Qed.

Lemma free_of_at_before_at (s : string) : free_of_at (before_at s) = true.
Proof.
  induction s as [|c s IH]; simpl; [reflexivity|].
  destruct (Ascii.eqb c "@") eqn:E; simpl; [reflexivity|]. now rewrite E.
Qed.

Lemma shell_handle_kept (ev : ShellEvent) (sh : Shell) :
  shell_kept sh -> shell_kept (shell_handle ev sh).
Proof.
  intros (C & S & L & F & O). destruct ev; simpl; try (split; [exact C | auto]).
  - (* a page event *)
    split; [|auto]. simpl.
    destruct (handle_copiedField ev (shell_app sh)) as [-> | ->]; [exact C | congruence].
  - (* a key *)
    unfold handleKeyDown.
    destruct (String.eqb (key e) "Escape"),
             (showCountrySheet (page (shell_app sh))),
             (showDomainSheet (page (shell_app sh))),
             (showMenu sh), (isImmersive sh),
             ((ctrlKey e || metaKey e) && String.eqb (key e) "g"),
             ((ctrlKey e || metaKey e) && String.eqb (key e) "s");
      simpl; unfold handleSaveIdentity; repeat case_match;
      (split; [simpl; first [exact C | congruence] | auto]).
  - (* the clipboard settles *)
    destruct (clipboardWrites sh) as [|[text label] rest]; [split; auto|].
    unfold copyToClipboard_resumes. destruct ok; simpl; split; auto.
  - (* the copy timer *)
    destruct (copyTimer sh) eqn:T;
      [split; [simpl; congruence | auto] | split; [rewrite T; exact C | auto]].
  - (* the inbox button *)
    unfold handleInboxClick. destruct (inboxStatus sh) eqn:I;
      [|split; [exact C | rewrite I; auto]].
    assert (Q : inboxTimers sh = []).
    { destruct (inboxTimers sh) eqn:Q; [reflexivity|].
      assert (inbox_idle = opening) by (apply S; discriminate). discriminate. }
    split; [exact C|]. simpl. rewrite Q. simpl. repeat split; auto.
    constructor; [apply free_of_at_before_at | constructor].
  - (* the inbox timer *)
    destruct (inboxTimers sh) as [|n rest] eqn:Q;
      [split; [exact C | rewrite Q; auto]|].
    apply Forall_cons in F as [Fn F].
    split; [exact C|]. simpl.
    assert (R : rest = []) by (destruct rest; [reflexivity | simpl in L; lia]).
    subst rest. repeat split; auto; try discriminate; try congruence.
    apply Forall_app. split; [exact O|]. constructor; [eauto | constructor].
  - (* the guide timer *)
    destruct (guideTimer sh); split; auto.
Qed.

Lemma shell_step_kept (sh : Shell) (ev : ShellEvent) :
  shell_kept sh -> shell_kept (shell_step sh ev).
Proof.
  intros K. unfold shell_step. now apply shell_kept_rerender, shell_handle_kept.
Qed.

Lemma shell_steps_kept (evs : list ShellEvent) (sh : Shell) :
  shell_kept sh -> shell_kept (shell_steps sh evs).
Proof.
  revert sh. induction evs as [|ev evs IH]; intros sh K; [exact K|].
  apply IH. now apply shell_step_kept.
Qed.

Lemma shell_mount_kept (w : World) (st : gmap string SavedIdentity)
    (ls : gmap string string) (clip : option string) :
  shell_kept (shell_mount w st ls clip).
Proof.
  unfold shell_kept; simpl. repeat split; try congruence; try constructor.
  lia.
Qed.

End ShellRuns.

Section ShellProperties.

Context `{Imports}.

(** X19.  In every run of the shell, a row marked as copied has the timer
    pending that will clear the mark: the mark cannot stick, not even when
    a generation clears it early or copies overlap. *)
Theorem copied_mark_has_pending_timer
    (w : World) (st : gmap string SavedIdentity) (ls : gmap string string)
    (clip : option string) (evs : list ShellEvent) :
  let sh := shell_steps (shell_mount w st ls clip) evs in
  match copiedField (page (shell_app sh)) with
  | Some _ => copyTimer sh = true
  | None => True
  end.
Proof.
  intros sh.
  destruct (shell_steps_kept evs _ (shell_mount_kept w st ls clip)) as (C & _).
  fold sh in C. destruct (copiedField (page (shell_app sh))); [|exact I].
  apply C. discriminate.
Qed.

(** X21.  In every run of the shell, at most one inbox window is on its way
    (clicks while one is opening are ignored), the status is [opening]
    exactly while it is, and every address opened is the inbox address
    with a login that holds no ['@']. *)
Theorem inbox_opens_one_window_at_a_time
    (w : World) (st : gmap string SavedIdentity) (ls : gmap string string)
    (clip : option string) (evs : list ShellEvent) :
  let sh := shell_steps (shell_mount w st ls clip) evs in
  (length (inboxTimers sh) <= 1)%nat
  /\ (inboxStatus sh = opening <-> inboxTimers sh <> [])
  /\ Forall (fun url => exists n, url = inbox_url n /\ free_of_at n = true) (opened sh).
Proof.
  intros sh.
  destruct (shell_steps_kept evs _ (shell_mount_kept w st ls clip))
    as (_ & S & L & _ & O).
  auto.
Qed.

Lemma before_at_local (local rest : string) :
  free_of_at local = true -> before_at (local +:+ "@" +:+ rest) = local.
Proof.
  induction local as [|c l IH]; intros F; [reflexivity|].
  simpl in F. apply andb_prop in F as [N F]. apply negb_true_iff in N.
  change (before_at (String c (l +:+ "@" +:+ rest)) = String c l).
  simpl. rewrite N. now rewrite IH.
Qed.

Lemma shell_steps_on_page (evs : list Event) (sh : Shell) :
  shell_steps sh (OnPage <$> evs) = with_shell_app (steps (shell_app sh) evs) sh.
Proof.
  revert sh. induction evs as [|ev evs IH]; intros sh.
  - simpl. symmetry. apply with_shell_app_id.
  - change (shell_steps sh (OnPage <$> ev :: evs))
      with (shell_steps (shell_step sh (OnPage ev)) (OnPage <$> evs)).
    rewrite IH, shell_step_on_page. now destruct sh.
Qed.

Lemma shell_steps_app (sh : Shell) (evs1 evs2 : list ShellEvent) :
  shell_steps sh (evs1 ++ evs2) = shell_steps (shell_steps sh evs1) evs2.
Proof. apply fold_left_app. Qed.

(** X22.  The inbox that opens is the one of the email displayed at the click:
    for an email [local@domain], with no window on its way, a click
    followed by any events of the page (a new identity, say) and then the
    timer opens the inbox of [local]. *)
Theorem inbox_is_for_email_at_click
    (sh : Shell) (evs : list Event) (local domain : string)
    (Hidle : inboxStatus sh = inbox_idle)
    (Hnone : inboxTimers sh = [])
    (Hlocal : free_of_at local = true)
    (Hemail : email (userInfo (page (shell_app sh))) = local +:+ "@" +:+ domain) :
  opened (shell_steps sh (ClickInbox :: (OnPage <$> evs) ++ [InboxTimerFires]))
  = opened sh ++ ["https://yopmail.net/?login=" +:+ local].
Proof.
  change (shell_steps sh (ClickInbox :: (OnPage <$> evs) ++ [InboxTimerFires]))
    with (shell_steps (shell_step sh ClickInbox) ((OnPage <$> evs) ++ [InboxTimerFires])).
  assert (C : shell_step sh ClickInbox = shell_handle ClickInbox sh).
  { apply shell_step_quiet; simpl; unfold handleInboxClick;
      destruct (inboxStatus sh); reflexivity. }
  assert (T : inboxTimers (shell_handle ClickInbox sh) = [local]
              /\ opened (shell_handle ClickInbox sh) = opened sh).
  { simpl. unfold handleInboxClick. rewrite Hidle; simpl.
    rewrite Hnone, Hemail, before_at_local by exact Hlocal. auto. }
  destruct T as [T O].
  rewrite C, shell_steps_app, shell_steps_on_page.
  set (sh2 := with_shell_app _ (shell_handle ClickInbox sh)).
  simpl in T, O. unfold shell_steps; simpl fold_left.
  rewrite shell_step_quiet; simpl; rewrite T; simpl; try reflexivity.
  now rewrite O.
Qed.

Lemma escape_key (sh : Shell) (e : KeyEvent) :
  key e = "Escape" ->
  shell_step sh (KeyDown e)
  = if showCountrySheet (page (shell_app sh)) then handleCloseCountrySheet sh
    else if showDomainSheet (page (shell_app sh)) then handleCloseDomainSheet sh
    else if showMenu sh then handleCloseMenu sh
    else if isImmersive sh then handleExitImmersive sh
    else sh.
Proof.
  intros K.
  assert (E : shell_handle (KeyDown e) sh
              = if showCountrySheet (page (shell_app sh)) then handleCloseCountrySheet sh
                else if showDomainSheet (page (shell_app sh)) then handleCloseDomainSheet sh
                else if showMenu sh then handleCloseMenu sh
                else if isImmersive sh then handleExitImmersive sh
                else sh).
  { simpl. unfold handleKeyDown. rewrite K. simpl. rewrite !andb_false_r. reflexivity. }
  rewrite shell_step_quiet; [exact E | rewrite E ..];
    repeat case_match; reflexivity.
Qed.

Lemma escape_layers (sh : Shell) (e : KeyEvent) :
  key e = "Escape" ->
  layers (shell_step sh (KeyDown e)) = close_first (layers sh).
Proof.
  intros K. rewrite escape_key by exact K. unfold layers.
  destruct (showCountrySheet (page (shell_app sh))) eqn:A; [simpl; now rewrite ?A|].
  destruct (showDomainSheet (page (shell_app sh))) eqn:B; [simpl; now rewrite A|].
  destruct (showMenu sh) eqn:C; [simpl; now rewrite A, B|].
  destruct (isImmersive sh) eqn:D; simpl; now rewrite ?A, ?B, ?C, ?D.
Qed.

(** X23.  Escape closes one layer at a time, the topmost open one of country
    sheet, domain sheet, menu and immersive mode, and leaves what the page
    shows and has queued alone; four presses close every layer. *)
Theorem escape_closes_topmost_layer (sh : Shell) (e : KeyEvent)
    (Hkey : key e = "Escape") :
  let sh' := shell_step sh (KeyDown e) in
  layers sh' = close_first (layers sh)
  /\ open_layers sh' = pred (open_layers sh)
  /\ userInfo (page (shell_app sh')) = userInfo (page (shell_app sh))
  /\ run (shell_app sh') = run (shell_app sh)
  /\ idleCallbacks (shell_app sh') = idleCallbacks (shell_app sh)
  /\ saveTimers (shell_app sh') = saveTimers (shell_app sh)
  /\ added (shell_app sh') = added (shell_app sh)
  /\ layers (shell_steps sh (replicate 4 (KeyDown e))) = [false; false; false; false].
Proof.
  intros sh'. subst sh'.
  split; [now apply escape_layers|].
  split.
  { unfold open_layers. rewrite escape_layers by exact Hkey. unfold layers.
    destruct (showCountrySheet _), (showDomainSheet _), (showMenu sh), (isImmersive sh);
      reflexivity. }
  repeat split; try (rewrite escape_key by exact Hkey; repeat case_match; reflexivity).
  unfold shell_steps; simpl fold_left.
  rewrite !escape_layers by exact Hkey. unfold layers.
  destruct (showCountrySheet _), (showDomainSheet _), (showMenu sh), (isImmersive sh);
    reflexivity.
Qed.

Lemma after_click_quiet (click : Shell -> Shell -> Shell) (sh : Shell) :
  click sh sh = sh -> after_click click sh = sh.
Proof.
  intros E. unfold after_click. rewrite E.
  rewrite rerender_unchanged by reflexivity. apply with_shell_app_id.
Qed.

(** X24.  The shortcuts call the handlers in every state; the buttons only
    where they are rendered and enabled.  Ctrl or Cmd with [g] calls
    [generate] and always queues a request: it acts as a click on the
    generate button where that button is enabled, and where the button is
    disabled (a request is running) or not rendered (before
    initialisation) the click does nothing while the key still queues a
    request.  Ctrl or Cmd with [s] calls [handleSaveIdentity]: on an
    initialised page it acts as a click on the save button, whose disabled
    states are states in which the handler returns at once.  Any other key
    but Escape, and [g] or [s] without Ctrl or Cmd, does nothing. *)
Theorem shortcuts_call_handlers_buttons_are_guarded (sh : Shell) (e : KeyEvent) :
  (key e = "g" -> ctrlKey e || metaKey e = true ->
   shell_step sh (KeyDown e) = shell_step sh (OnPage PressGenerate)
   /\ idleCallbacks (shell_app (shell_step sh (KeyDown e)))
      = idleCallbacks (shell_app sh)
        ++ [mkIdleCallback (selectedCountry (page (shell_app sh)))
                           (selectedDomain (page (shell_app sh)))]
   /\ (generate_button_enabled (page (shell_app sh)) = true ->
       after_click click_generate sh = shell_step sh (KeyDown e))
   /\ (generate_button_enabled (page (shell_app sh)) = false ->
       after_click click_generate sh = sh
       /\ shell_step sh (KeyDown e) <> after_click click_generate sh))
  /\ (key e = "s" -> ctrlKey e || metaKey e = true ->
      shell_step sh (KeyDown e) = shell_step sh (OnPage PressSave)
      /\ (isInitialized (page (shell_app sh)) = true ->
          after_click click_save sh = shell_step sh (KeyDown e))
      /\ (isInitialized (page (shell_app sh)) = false ->
          after_click click_save sh = sh))
  /\ (key e <> "Escape" ->
      (key e <> "g" /\ key e <> "s") \/ ctrlKey e || metaKey e = false ->
      shell_step sh (KeyDown e) = sh).
Proof.
  split; [|split].
  - intros K M.
    assert (E : shell_step sh (KeyDown e) = shell_step sh (OnPage PressGenerate)).
    { unfold shell_step; simpl. unfold handleKeyDown. rewrite K, M. reflexivity. }
    assert (Q : idleCallbacks (shell_app (shell_step sh (OnPage PressGenerate)))
                = idleCallbacks (shell_app sh)
                  ++ [mkIdleCallback (selectedCountry (page (shell_app sh)))
                                     (selectedDomain (page (shell_app sh)))]).
    { rewrite shell_step_on_page; simpl. rewrite step_generate. reflexivity. }
    split; [exact E|]. split; [now rewrite E|]. split.
    + intros B. rewrite E. unfold after_click, click_generate, shell_step.
      rewrite B. reflexivity.
    + intros B.
      assert (N : after_click click_generate sh = sh).
      { apply after_click_quiet. unfold click_generate. now rewrite B. }
      split; [exact N|]. rewrite N, E. intros A.
      rewrite A in Q. apply (f_equal length) in Q. rewrite length_app in Q.
      simpl in Q. lia.
  - intros K M.
    assert (E : shell_step sh (KeyDown e) = shell_step sh (OnPage PressSave)).
    { unfold shell_step; simpl. unfold handleKeyDown. rewrite K, M. reflexivity. }
    split; [exact E|]. split.
    + intros I. rewrite E. unfold after_click, click_save, save_button_enabled,
        shell_step. rewrite I; simpl.
      destruct (isSaved (page (shell_app sh))
                || negb (truthy (email (userInfo (page (shell_app sh)))))) eqn:G;
        simpl; [|reflexivity].
      assert (R : handleSaveIdentity (page (shell_app sh)) (shell_app sh)
                  = shell_app sh).
      { unfold handleSaveIdentity. rewrite <- orb_assoc, G. now rewrite orb_true_r. }
      rewrite R. reflexivity.
    + intros I. apply after_click_quiet. unfold click_save, save_button_enabled.
      now rewrite I.
  - intros N P.
    assert (E : shell_handle (KeyDown e) sh = sh).
    { simpl. unfold handleKeyDown.
      rewrite (proj2 (String.eqb_neq _ _) N).
      destruct P as [[Ng Ns]|M].
      - rewrite (proj2 (String.eqb_neq _ _) Ng), (proj2 (String.eqb_neq _ _) Ns).
        now rewrite !andb_false_r.
      - now rewrite M. }
    rewrite shell_step_quiet; rewrite E; reflexivity.
Qed.

Lemma row_label_inj (f g : Row) : row_label f = row_label g -> f = g.
Proof. destruct f, g; simpl; intros E; try reflexivity; discriminate. Qed.

(** X20.  Copying a row: with no write pending, a click on a row, any events
    of the page, and then the write succeeding put on the clipboard the
    field of the record that row stood for at the click, mark that row and
    no other, and set the timer that clears the mark; a rejected write
    changes neither the clipboard nor the timer.  What is copied is what
    the value span of the row held, except on an empty field of the five
    upper rows: there the row holds three dashes and the empty string is
    copied. *)
Theorem clipboard_gets_field_at_click
    (sh : Shell) (f : Row) (evs : list Event) (ok : bool)
    (Hnone : clipboardWrites sh = []) :
  let u := userInfo (page (shell_app sh)) in
  let sh' := shell_steps sh (ClickRow f :: (OnPage <$> evs) ++ [ClipboardSettles ok]) in
  (if ok then
     clipboard sh' = Some (row_text f u)
     /\ copyTimer sh' = true
     /\ forall g, copiedField (page (shell_app sh')) = Some (row_label g) <-> g = f
   else
     clipboard sh' = clipboard sh /\ copyTimer sh' = copyTimer sh)
  /\ (row_text f u <> "" \/ f = EmailRow -> row_shown f u = row_text f u)
  /\ (row_text f u = "" -> f <> EmailRow ->
      row_shown f u = "---" /\ row_shown f u <> row_text f u).
Proof.
  intros u sh'. subst u sh'. split; [|split].
  2:{ intros [N| ->]; [|reflexivity]. apply truthy_true in N.
      unfold row_shown. destruct f; try reflexivity; simpl in *; now rewrite N. }
  2:{ intros E N. unfold row_shown.
      destruct f; try contradiction; simpl in *; rewrite E; split;
        try reflexivity; discriminate. }
  change (shell_steps sh (ClickRow f :: (OnPage <$> evs) ++ [ClipboardSettles ok]))
    with (shell_steps (shell_step sh (ClickRow f))
            ((OnPage <$> evs) ++ [ClipboardSettles ok])).
  rewrite (shell_step_quiet sh (ClickRow f)) by reflexivity.
  rewrite shell_steps_app, shell_steps_on_page.
  assert (W : clipboardWrites (shell_handle (ClickRow f) sh)
              = [(row_text f (userInfo (page (shell_app sh))), row_label f)]).
  { simpl. unfold copyToClipboard; simpl. now rewrite Hnone. }
  assert (B : clipboard (shell_handle (ClickRow f) sh) = clipboard sh
              /\ copyTimer (shell_handle (ClickRow f) sh) = copyTimer sh)
    by (split; reflexivity).
  destruct B as [B1 B2].
  remember (shell_handle (ClickRow f) sh) as sh1 eqn:E1. clear E1.
  unfold shell_steps; simpl fold_left.
  assert (Q : shell_step (with_shell_app (steps (shell_app sh1) evs) sh1)
                (ClipboardSettles ok)
              = shell_handle (ClipboardSettles ok)
                  (with_shell_app (steps (shell_app sh1) evs) sh1)).
  { apply shell_step_quiet; simpl; rewrite W; unfold copyToClipboard_resumes;
      destruct ok; reflexivity. }
  rewrite Q. simpl. rewrite W. unfold copyToClipboard_resumes.
  destruct ok; simpl.
  - repeat split; try reflexivity.
    + intros E. injection E as E. symmetry. now apply row_label_inj.
    + now intros ->.
  - split; assumption.
Qed.

Lemma hasSeenGuide_dismissed (ls : gmap string string) :
  hasSeenGuide (<["hasSeenMenuGuide" := "true"]> ls) = true.
Proof. unfold hasSeenGuide. now rewrite lookup_insert_eq. Qed.

Lemma shell_step_localStorage (sh : Shell) (ev : ShellEvent) :
  localStorage (shell_step sh ev) = localStorage sh
  \/ localStorage (shell_step sh ev) = <["hasSeenMenuGuide" := "true"]> (localStorage sh).
Proof.
  unfold shell_step; simpl. destruct ev; simpl; auto.
  - unfold handleKeyDown. repeat case_match; auto.
  - destruct (clipboardWrites sh) as [|[text label] rest]; auto.
    unfold copyToClipboard_resumes. destruct ok; auto.
  - destruct (copyTimer sh); auto.
  - unfold handleInboxClick. destruct (inboxStatus sh); auto.
  - destruct (inboxTimers sh); auto.
  - destruct (guideTimer sh); auto.
Qed.

Lemma shell_steps_seen (evs : list ShellEvent) (sh : Shell) :
  hasSeenGuide (localStorage sh) = true ->
  hasSeenGuide (localStorage (shell_steps sh evs)) = true.
Proof.
  revert sh. induction evs as [|ev evs IH]; intros sh S; [exact S|].
  apply IH. destruct (shell_step_localStorage sh ev) as [-> | ->];
    [exact S | apply hasSeenGuide_dismissed].
Qed.

Lemma shell_step_no_guide (sh : Shell) (ev : ShellEvent) :
  guideTimer sh = false -> showMenuGuide sh = false ->
  guideTimer (shell_step sh ev) = false /\ showMenuGuide (shell_step sh ev) = false.
Proof.
  intros T G. unfold shell_step; simpl. destruct ev; simpl; auto.
  - unfold handleKeyDown. repeat case_match; auto.
  - destruct (clipboardWrites sh) as [|[text label] rest]; auto.
    unfold copyToClipboard_resumes. destruct ok; auto.
  - destruct (copyTimer sh); auto.
  - unfold handleInboxClick. destruct (inboxStatus sh); auto.
  - destruct (inboxTimers sh); auto.
  - rewrite T. auto.
Qed.

Lemma shell_steps_no_guide (evs : list ShellEvent) (sh : Shell) :
  guideTimer sh = false -> showMenuGuide sh = false ->
  showMenuGuide (shell_steps sh evs) = false.
Proof.
  revert sh. induction evs as [|ev evs IH]; intros sh T G; [exact G|].
  destruct (shell_step_no_guide sh ev T G) as [T' G']. now apply IH.
Qed.

(** X25.  The guide comes once: after it was dismissed, whatever happens next,
    local storage remembers it, and a page mounted later with that storage
    never shows the guide. *)
Theorem dismissed_guide_stays_away
    (sh : Shell) (evs1 evs2 : list ShellEvent)
    (w : World) (st : gmap string SavedIdentity) (clip : option string) :
  let ls := localStorage (shell_steps (shell_step sh DismissGuide) evs1) in
  showMenuGuide (shell_step sh DismissGuide) = false
  /\ hasSeenGuide ls = true
  /\ showMenuGuide (shell_steps (shell_mount w st ls clip) evs2) = false.
Proof.
  intros ls.
  assert (S : hasSeenGuide ls = true).
  { subst ls. apply shell_steps_seen.
    rewrite shell_step_quiet by reflexivity. apply hasSeenGuide_dismissed. }
  split; [now rewrite shell_step_quiet by reflexivity|].
  split; [exact S|].
  apply shell_steps_no_guide; simpl; [now rewrite S | reflexivity].
Qed.

End ShellProperties.

(** ** The country flag *)

Section CountryFlagRuns.

Variable Comp : Type.

Lemma cleanup_none_mounted (ls : list FlagLoad) :
  List.filter load_isMounted (cleanup ls) = [].
Proof. induction ls as [|l ls IH]; simpl; [reflexivity | exact IH]. Qed.

Lemma cleanup_Forall (c : string) (ls : list FlagLoad) :
  Forall (fun l => load_isMounted l = true -> load_countryCode l = c) (cleanup ls).
Proof.
  induction ls as [|l ls IH]; simpl; constructor; [discriminate | exact IH].
Qed.

Lemma filter_delete_mounted (ls : list FlagLoad) (i : nat) (l : FlagLoad) :
  ls !! i = Some l ->
  (length (List.filter load_isMounted ls) <= 1)%nat ->
  (length (List.filter load_isMounted (delete i ls)) <= 1)%nat
  /\ (load_isMounted l = true -> List.filter load_isMounted (delete i ls) = [])
  /\ (List.filter load_isMounted ls = [] ->
      List.filter load_isMounted (delete i ls) = []).
Proof.
  intros L B. rewrite delete_take_drop.
  rewrite <- (take_drop_middle ls i l L) in B.
  rewrite List.filter_app in B |- *. simpl in B. rewrite length_app in B |- *.
  split; [|split].
  - destruct (load_isMounted l); simpl in B; lia.
  - intros M. rewrite M in B. simpl in B.
    destruct (List.filter load_isMounted (take i ls)),
             (List.filter load_isMounted (drop (S i) ls)); simpl in *; try lia.
    reflexivity.
  - intros E. rewrite <- (take_drop_middle ls i l L), List.filter_app in E.
    apply app_eq_nil in E as [E1 E2]. simpl in E2. rewrite E1. simpl.
    destruct (load_isMounted l); [discriminate | exact E2].
Qed.

Lemma CountryFlag_step_kept (s : CountryFlagState Comp) (ev : FlagEvent Comp) :
  CountryFlag_kept s -> CountryFlag_kept (CountryFlag_step s ev).
Proof.
  intros (F & L & N & D). destruct ev as [c|i outcome|]; simpl.
  - case_bool_decide; [repeat split; assumption|].
    unfold CountryFlag_kept; simpl. rewrite List.filter_app, cleanup_none_mounted.
    repeat split; simpl; try discriminate; try lia.
    apply Forall_app. split; [apply cleanup_Forall | now repeat constructor].
  - destruct (loads s !! i) as [l|] eqn:Q; [|repeat split; assumption].
    destruct (filter_delete_mounted _ _ _ Q L) as (L' & M' & E').
    pose proof (Forall_delete _ _ i F) as F'.
    pose proof (proj1 (Forall_lookup _ _) F i l Q) as Fl. simpl in Fl.
    destruct (load_isMounted l) eqn:M.
    + destruct outcome as [e|[component|]]; unfold CountryFlag_kept; simpl;
        repeat split; auto; try congruence.
      intros _ _. now rewrite Fl.
    + unfold CountryFlag_kept; simpl. repeat split; auto.
  - unfold CountryFlag_kept; simpl. rewrite cleanup_none_mounted.
    repeat split; simpl; auto; try lia. apply cleanup_Forall.
Qed.

Lemma CountryFlag_steps_kept (evs : list (FlagEvent Comp)) (s : CountryFlagState Comp) :
  CountryFlag_kept s -> CountryFlag_kept (CountryFlag_steps s evs).
Proof.
  revert s. induction evs as [|ev evs IH]; intros s K; [exact K|].
  apply IH. now apply CountryFlag_step_kept.
Qed.

Lemma CountryFlag_mount_kept (c : string) :
  CountryFlag_kept (CountryFlag_mount (Comp := Comp) c).
Proof.
  unfold CountryFlag_kept; simpl. repeat split; try discriminate; try lia.
  now repeat constructor.
Qed.

(** X26.  In every run of a flag, the flag on display was delivered by the
    load for the current country code; and a load started for another
    code settles without changing what is displayed. *)
Theorem flag_on_display_is_for_current_code
    (c : string) (evs : list (FlagEvent Comp)) :
  let s := CountryFlag_steps (CountryFlag_mount (Comp := Comp) c) evs in
  (if shows_flag s then delivered_for s = Some (flag_countryCode s) else True)
  /\ forall i l outcome,
       loads s !! i = Some l ->
       load_countryCode l <> flag_countryCode s ->
       let s' := CountryFlag_step s (LoadSettles i outcome) in
       FlagComponent s' = FlagComponent s
       /\ isLoading s' = isLoading s
       /\ flag_countryCode s' = flag_countryCode s.
Proof.
  intros s.
  destruct (CountryFlag_steps_kept evs _ (CountryFlag_mount_kept c)) as (F & L & N & D).
  fold s in F, L, N, D. split.
  - unfold shows_flag. destruct (isLoading s); simpl; [exact I|].
    case_bool_decide as P; simpl; [|exact I].
    apply D; [reflexivity|]. destruct P as [x ->]. discriminate.
  - intros i l outcome Q Ne. simpl. rewrite Q.
    pose proof (proj1 (Forall_lookup _ _) F i l Q) as Fl. simpl in Fl.
    destruct (load_isMounted l); [now destruct Ne; apply Fl|]. auto.
Qed.

(** X27.  In every run of a flag, at most one pending load can still write
    the state, and while the flag or its placeholder is settled (not
    loading) none can. *)
Theorem flag_has_one_live_load
    (c : string) (evs : list (FlagEvent Comp)) :
  let s := CountryFlag_steps (CountryFlag_mount (Comp := Comp) c) evs in
  (length (List.filter load_isMounted (loads s)) <= 1)%nat
  /\ (if isLoading s then True else List.filter load_isMounted (loads s) = []).
Proof.
  intros s.
  destruct (CountryFlag_steps_kept evs _ (CountryFlag_mount_kept c)) as (F & L & N & D).
  fold s in L, N. split; [exact L|]. destruct (isLoading s); auto.
Qed.

End CountryFlagRuns.

(** ** Requests in flight *)

Section RequestRuns.

Context `{Imports}.

Lemma commit_queue (prev : Page) (a : App) :
  exists extra, idleCallbacks (commit prev a) = idleCallbacks a ++ extra.
Proof.
  unfold commit, effect_isSaved, effect_initial, effect_country, generate, on_page.
  repeat case_bool_decide; repeat case_match; simpl;
    first [ now exists []; rewrite app_nil_r | eexists; reflexivity ].
Qed.

Lemma rerender_queue (prev : Page) (a : App) :
  exists extra, idleCallbacks (rerender prev a) = idleCallbacks a ++ extra.
Proof.
  unfold rerender.
  destruct (commit_queue (page a) (commit prev a)) as [x2 ->].
  destruct (commit_queue prev a) as [x1 ->].
  exists (x1 ++ x2). now rewrite app_assoc.
Qed.

Lemma step_keeps_oldest_request (a : App) (ev : Event) (cb : IdleCallback)
    (rest : list IdleCallback) :
  idleCallbacks a = cb :: rest ->
  is_IdleCallbackRuns ev = false ->
  exists rest', idleCallbacks (step a ev) = cb :: rest'.
Proof.
  intros Q N. unfold step.
  destruct (rerender_queue (page a) (handle ev a)) as [extra ->].
  assert (E : exists x, idleCallbacks (handle ev a) = idleCallbacks a ++ x).
  { destruct ev; try discriminate; simpl;
      try (now exists []; rewrite app_nil_r).
    - eexists; reflexivity.
    - unfold handleSaveIdentity; destruct (_ || _); simpl;
        now exists []; rewrite app_nil_r.
    - destruct (saveTimers a); simpl; now exists []; rewrite app_nil_r.
    - destruct (resetTimer a); simpl; now exists []; rewrite app_nil_r.
    - destruct (initializing a); simpl; now exists []; rewrite app_nil_r. }
  destruct E as [x ->]. rewrite Q. simpl. eauto.
Qed.

Lemma steps_keep_oldest_request (evs : list Event) (a : App) (cb : IdleCallback)
    (rest : list IdleCallback) :
  idleCallbacks a = cb :: rest ->
  Forall (fun ev => is_IdleCallbackRuns ev = false) evs ->
  exists rest', idleCallbacks (steps a evs) = cb :: rest'.
Proof.
  revert a rest. induction evs as [|ev evs IH]; intros a rest Q F; [simpl; eauto|].
  apply Forall_cons in F as [F1 F].
  destruct (step_keeps_oldest_request a ev cb rest Q F1) as (rest1 & Q1).
  exact (IH (step a ev) rest1 Q1 F).
Qed.

(** X18.  A request composes for the selection of its own moment: with nothing
    queued, after a press of generate and any events that run no idle
    callback (another country, another domain, more presses), the callback
    that runs next still composes for the country and the domain selected
    at the press. *)
Theorem request_keeps_selection_of_its_moment (a : App) (evs : list Event)
    (Hnone : idleCallbacks a = [])
    (Hevents : Forall (fun ev => is_IdleCallbackRuns ev = false) evs) :
  let a' := steps a (PressGenerate :: evs) in
  (exists rest,
     idleCallbacks a'
     = mkIdleCallback (selectedCountry (page a)) (selectedDomain (page a)) :: rest)
  /\ run (handle IdleCallbackRuns a')
     = (compose_identity (selectedCountry (page a)) (selectedDomain (page a)) (run a')).1.
Proof.
  intros a'.
  assert (Q : idleCallbacks (step a PressGenerate)
              = [mkIdleCallback (selectedCountry (page a)) (selectedDomain (page a))]).
  { rewrite step_generate. unfold generate; simpl. now rewrite Hnone. }
  destruct (steps_keep_oldest_request evs _ _ _ Q Hevents) as [rest R].
  change (steps (step a PressGenerate) evs) with a' in R.
  split; [eauto|]. simpl. rewrite R. unfold idle_callback; simpl.
  destruct (compose_identity _ _ (run a')) as [r [e|u]]; reflexivity.
Qed.

(** X17.  The effects settle: after an event, the effects of the render it
    causes and of the one render their updates cause leave nothing to run
    (a further commit changes nothing), and of these two commits only the
    first can invoke the generators. *)
Theorem effects_settle_in_two_commits (prev : Page) (a : App) :
  commit (page (commit prev a)) (rerender prev a) = rerender prev a
  /\ run (rerender prev a) = run (commit prev a)
  /\ userInfo (page (rerender prev a)) = userInfo (page (commit prev a)).
Proof.
  split; [apply commit_settled|]. split.
  - apply rerender_composes_once.
  - apply rerender_second_commit_keeps_record.
Qed.

End RequestRuns.

(** ** The further properties on the sample library *)

Section FurtherSampleRuns.

#[local] Existing Instance Sample.lib.

Import Sample SampleShell.

Lemma save_events_witness :
  is_save_event PressSave = true
  /\ userInfo (page (step ready PressSave)) = userInfo (page ready).
Proof.
  split; [reflexivity|].
  exact (proj1 (save_events_keep_record ready PressSave eq_refl)).
Defined.

Lemma only_save_timer_witness :
  is_SaveTimerFires PressGenerate = false
  /\ added (step kept PressGenerate) = added kept.
Proof.
  split; [reflexivity|].
  exact (proj1 (only_save_timer_writes_store kept PressGenerate eq_refl)).
Defined.

Lemma saved_identity_witness :
  email (userInfo (page ready)) <> ""
  /\ saveStatus (page ready) <> saving
  /\ isSaved (page ready) = false
  /\ saveTimers ready = []
  /\ Forall (fun ev => is_SaveTimerFires ev = false) [PressGenerate; IdleCallbackRuns]
  /\ saved_email <$> added (steps ready (PressSave :: [PressGenerate; IdleCallbackRuns]
                                          ++ [SaveTimerFires]))
     = ["annaschmidt4@yopmail.com"].
Proof.
  assert (E : email (userInfo (page ready)) <> "") by (vm_compute; discriminate).
  assert (S : saveStatus (page ready) <> saving) by (vm_compute; discriminate).
  assert (F : Forall (fun ev => is_SaveTimerFires ev = false)
                [PressGenerate; IdleCallbackRuns]) by (repeat constructor).
  split; [exact E|]. split; [exact S|]. split; [reflexivity|].
  split; [reflexivity|]. split; [exact F|].
  rewrite (saved_identity_is_record_at_press ready [PressGenerate; IdleCallbackRuns]
             E S eq_refl eq_refl F).
  reflexivity.
Defined.

Lemma request_selection_witness :
  idleCallbacks ready = []
  /\ Forall (fun ev => is_IdleCallbackRuns ev = false) [ChooseDomain "inbox.test"]
  /\ run (handle IdleCallbackRuns
            (steps ready (PressGenerate :: [ChooseDomain "inbox.test"])))
     = (compose_identity (selectedCountry (page ready)) (selectedDomain (page ready))
          (run (steps ready (PressGenerate :: [ChooseDomain "inbox.test"])))).1.
Proof.
  assert (F : Forall (fun ev => is_IdleCallbackRuns ev = false)
                [ChooseDomain "inbox.test"]) by (repeat constructor).
  split; [reflexivity|]. split; [exact F|].
  exact (proj2 (request_keeps_selection_of_its_moment ready
                  [ChooseDomain "inbox.test"] eq_refl F)).
Defined.

Lemma inbox_witness :
  inboxStatus visited = inbox_idle
  /\ inboxTimers visited = []
  /\ free_of_at "annaschmidt4" = true
  /\ email (userInfo (page (shell_app visited))) = "annaschmidt4" +:+ "@" +:+ "yopmail.com"
  /\ opened (shell_steps visited
               (ClickInbox :: (OnPage <$> [PressGenerate; IdleCallbackRuns])
                ++ [InboxTimerFires]))
     = opened visited ++ ["https://yopmail.net/?login=" +:+ "annaschmidt4"].
Proof.
  assert (E : email (userInfo (page (shell_app visited)))
              = "annaschmidt4" +:+ "@" +:+ "yopmail.com") by (vm_compute; reflexivity).
  split; [reflexivity|]. split; [reflexivity|]. split; [reflexivity|].
  split; [exact E|].
  exact (inbox_is_for_email_at_click visited [PressGenerate; IdleCallbackRuns]
           "annaschmidt4" "yopmail.com" eq_refl eq_refl eq_refl E).
Defined.

Lemma escape_witness :
  key escape = "Escape"
  /\ layers (shell_steps visited [OpenMenu; ClickTitle]) = [false; false; true; true]
  /\ layers (shell_step (shell_steps visited [OpenMenu; ClickTitle]) (KeyDown escape))
     = [false; false; false; true].
Proof.
  split; [reflexivity|]. split; [vm_compute; reflexivity|].
  rewrite (proj1 (escape_closes_topmost_layer
                    (shell_steps visited [OpenMenu; ClickTitle]) escape eq_refl)).
  vm_compute. reflexivity.
Defined.

(** A click on the email row of the first identity, and, on the page
    whose initial generation failed (the rows are rendered with an empty
    record), a click on the first-name row: the empty string is copied
    while the row holds three dashes. *)
Lemma clipboard_witness :
  clipboardWrites visited = []
  /\ clipboard (shell_steps visited
                  (ClickRow EmailRow :: (OnPage <$> [PressGenerate; IdleCallbackRuns])
                   ++ [ClipboardSettles true]))
     = Some "annaschmidt4@yopmail.com"
  /\ row_shown EmailRow (userInfo (page (shell_app visited)))
     = "annaschmidt4@yopmail.com"
  /\ clipboardWrites stranded_shell = []
  /\ isInitialized (page (shell_app stranded_shell)) = true
  /\ clipboard (shell_steps stranded_shell
                  (ClickRow FirstNameRow :: (OnPage <$> []) ++ [ClipboardSettles true]))
     = Some ""
  /\ row_shown FirstNameRow (userInfo (page (shell_app stranded_shell))) = "---".
Proof.
  split; [reflexivity|].
  destruct (clipboard_gets_field_at_click visited EmailRow
              [PressGenerate; IdleCallbackRuns] true eq_refl) as ((C & _) & S & _).
  destruct (clipboard_gets_field_at_click stranded_shell FirstNameRow [] true eq_refl)
    as ((C' & _) & _ & B).
  split; [rewrite C; vm_compute; reflexivity|].
  split; [rewrite (S (or_intror eq_refl)); vm_compute; reflexivity|].
  split; [reflexivity|]. split; [reflexivity|].
  split; [rewrite C'; reflexivity|].
  exact (proj1 (B eq_refl ltac:(discriminate))).
Defined.

Lemma shortcuts_witness :
  key ctrl_g = "g" /\ ctrlKey ctrl_g || metaKey ctrl_g = true
  /\ generate_button_enabled (page (shell_app visited)) = true
  /\ after_click click_generate visited = shell_step visited (KeyDown ctrl_g)
  /\ generate_button_enabled (page (shell_app (shell_step visited (KeyDown ctrl_g))))
     = false
  /\ length (idleCallbacks (shell_app (shell_steps visited [KeyDown ctrl_g; KeyDown ctrl_g])))
     = 2%nat
  /\ after_click click_generate (shell_step visited (KeyDown ctrl_g))
     = shell_step visited (KeyDown ctrl_g).
Proof.
  split; [reflexivity|]. split; [reflexivity|]. split; [reflexivity|].
  destruct (proj1 (shortcuts_call_handlers_buttons_are_guarded visited ctrl_g)
              eq_refl eq_refl) as (_ & _ & B & _).
  destruct (proj1 (shortcuts_call_handlers_buttons_are_guarded
                     (shell_step visited (KeyDown ctrl_g)) ctrl_g)
              eq_refl eq_refl) as (_ & Q & _ & D).
  split; [exact (B eq_refl)|]. split; [reflexivity|]. split.
  - change (shell_steps visited [KeyDown ctrl_g; KeyDown ctrl_g])
      with (shell_step (shell_step visited (KeyDown ctrl_g)) (KeyDown ctrl_g)).
    rewrite Q. vm_compute. reflexivity.
  - exact (proj1 (D eq_refl)).
Defined.

End FurtherSampleRuns.
